(** * EnergyMaintenanceFHE: batch aggregation and decryption bridge

    A shallow embedding of the Solidity contract [EnergyMaintenanceFHE]
    (roles, pause flag, cooldowns, numbered batches with homomorphic
    sum and max accumulators, and the asynchronous decryption callback)
    together with the properties of its state machine.

    Storage mappings are finite maps with a default value, [uint256]
    values are [N] with Solidity's checked arithmetic written out, and
    every external function is a computation in a small state-and-revert
    monad.  The homomorphic engine is an interface ([FHEEngine]). *)

From Stdlib Require Import ZArith NArith Lia List Permutation.
From stdpp Require Import gmap list.
Import ListNotations.

Local Open Scope N_scope.

(** ** Machine types *)

Abbreviation address := N (only parsing).
Abbreviation uint256 := N (only parsing).
Abbreviation bytes32 := N (only parsing).
Abbreviation bytes := (list Byte.byte) (only parsing).

Definition MAX_UINT256 : uint256 := 2 ^ 256 - 1.
Definition address_zero : address := 0.

(** Solidity 0.8 addition: the result, or [None] where the EVM raises
    the arithmetic panic. *)
Definition checked_add (a b : uint256) : option uint256 :=
  if a + b <=? MAX_UINT256 then Some (a + b) else None.

(** A storage mapping read: an absent slot reads as the zero value. *)
Definition mapping_get {V : Type} (zero : V) (m : gmap N V) (k : N) : V :=
  default zero (m !! k).

(** ** Ciphertexts

    The contract only ever holds a 32-byte [handle].  The cleartext the
    handle stands for lives in the engine; it is carried along here as
    [clear] so that statements about decrypted values can be made.  [ebool]
    and [euint32] are the same 32-byte handles at run time; an encrypted
    boolean has cleartext 0 or 1. *)

Record ciphertext := Ciphertext { handle : bytes32; clear : Z }.

Abbreviation euint32 := ciphertext (only parsing).
Abbreviation ebool := ciphertext (only parsing).

Definition uninitialized : ciphertext := Ciphertext 0 0%Z.

Definition wrap32 (z : Z) : Z := (z mod 2 ^ 32)%Z.

(** ** The engine interface

    What the contract needs from its environment: its own address, the
    hash function, how the engine derives the handle of a result, how it
    reads a handle used as the control of a select, and the opaque proof
    check. *)

Class FHEEngine := {
  this : address;
  keccak256 : list N -> bytes32;
  handle_trivial : Z -> bytes32;
  handle_add : bytes32 -> bytes32 -> bytes32;
  handle_ge : bytes32 -> bytes32 -> bytes32;
  handle_select : bytes32 -> bytes32 -> bytes32 -> bytes32;
  control_true : Z -> bool;
  checkSignatures : uint256 -> bytes -> bytes -> bool
}.

(** ** Events and errors *)

Inductive Event :=
| OwnershipTransferred (previousOwner newOwner : N)
| ProviderAdded (provider : N)
| ProviderRemoved (provider : N)
| Paused (account : N)
| Unpaused (account : N)
| CooldownSecondsSet (oldCooldownSeconds newCooldownSeconds : N)
| BatchOpened (batchId : N)
| BatchClosed (batchId : N)
| DataSubmitted (provider batchId dataCount : N)
| DecryptionRequested (requestId batchId : N)
| DecryptionCompleted (requestId batchId : N) (totalVibration maxTemperature : N).

Inductive Error :=
| NotOwner
| NotProvider
| PausedState
| CooldownActive
| BatchNotOpen
| BatchOpen
| InvalidBatch
| ReplayAttempt
| StateMismatch
| DecryptionFailed
| Panic         (* checked arithmetic overflow *)
| AbiDecode.    (* abi.decode on malformed data *)

(** ** Storage *)

Record Batch := mkBatch {
  id : uint256;
  open : bool;
  dataCount : uint256;
  encryptedTotalVibration : euint32;
  encryptedMaxTemperature : euint32
}.

Record DecryptionContext := mkContext {
  batchId : uint256;
  stateHash : bytes32;
  processed : bool
}.

Definition zeroBatch : Batch := mkBatch 0 false 0 uninitialized uninitialized.
Definition zeroContext : DecryptionContext := mkContext 0 0 false.

Record State := mkState {
  owner : address;
  isProvider : gmap N bool;
  paused : bool;
  cooldownSeconds : uint256;
  lastSubmissionTime : gmap N N;
  lastDecryptionRequestTime : gmap N N;
  currentBatchId : uint256;
  batches : gmap N Batch;
  decryptionContexts : gmap N DecryptionContext;
  counterRequest : uint256;     (* the library's request counter, kept in contract storage *)
  events : list Event     (* the log, oldest first *)
}.

(** The transaction environment: [msg.sender] and [block.timestamp]. *)
Record Env := mkEnv { msg_sender : address; block_timestamp : uint256 }.

Definition batch_at (s : State) (k : N) : Batch := mapping_get zeroBatch (batches s) k.
Definition context_at (s : State) (k : N) : DecryptionContext :=
  mapping_get zeroContext (decryptionContexts s) k.

(** Field writes. *)
Definition set_owner (v : N) (s : State) : State :=
  mkState v (isProvider s) (paused s) (cooldownSeconds s) (lastSubmissionTime s)
    (lastDecryptionRequestTime s) (currentBatchId s) (batches s) (decryptionContexts s)
    (counterRequest s) (events s).
Definition set_isProvider (v : gmap N bool) (s : State) : State :=
  mkState (owner s) v (paused s) (cooldownSeconds s) (lastSubmissionTime s)
    (lastDecryptionRequestTime s) (currentBatchId s) (batches s) (decryptionContexts s)
    (counterRequest s) (events s).
Definition set_paused (v : bool) (s : State) : State :=
  mkState (owner s) (isProvider s) v (cooldownSeconds s) (lastSubmissionTime s)
    (lastDecryptionRequestTime s) (currentBatchId s) (batches s) (decryptionContexts s)
    (counterRequest s) (events s).
Definition set_cooldownSeconds (v : N) (s : State) : State :=
  mkState (owner s) (isProvider s) (paused s) v (lastSubmissionTime s)
    (lastDecryptionRequestTime s) (currentBatchId s) (batches s) (decryptionContexts s)
    (counterRequest s) (events s).
Definition set_lastSubmissionTime (v : gmap N N) (s : State) : State :=
  mkState (owner s) (isProvider s) (paused s) (cooldownSeconds s) v
    (lastDecryptionRequestTime s) (currentBatchId s) (batches s) (decryptionContexts s)
    (counterRequest s) (events s).
Definition set_lastDecryptionRequestTime (v : gmap N N) (s : State) : State :=
  mkState (owner s) (isProvider s) (paused s) (cooldownSeconds s) (lastSubmissionTime s)
    v (currentBatchId s) (batches s) (decryptionContexts s)
    (counterRequest s) (events s).
Definition set_currentBatchId (v : N) (s : State) : State :=
  mkState (owner s) (isProvider s) (paused s) (cooldownSeconds s) (lastSubmissionTime s)
    (lastDecryptionRequestTime s) v (batches s) (decryptionContexts s)
    (counterRequest s) (events s).
Definition set_batches (v : gmap N Batch) (s : State) : State :=
  mkState (owner s) (isProvider s) (paused s) (cooldownSeconds s) (lastSubmissionTime s)
    (lastDecryptionRequestTime s) (currentBatchId s) v (decryptionContexts s)
    (counterRequest s) (events s).
Definition set_decryptionContexts (v : gmap N DecryptionContext) (s : State) : State :=
  mkState (owner s) (isProvider s) (paused s) (cooldownSeconds s) (lastSubmissionTime s)
    (lastDecryptionRequestTime s) (currentBatchId s) (batches s) v
    (counterRequest s) (events s).
Definition set_counterRequest (v : N) (s : State) : State :=
  mkState (owner s) (isProvider s) (paused s) (cooldownSeconds s) (lastSubmissionTime s)
    (lastDecryptionRequestTime s) (currentBatchId s) (batches s) (decryptionContexts s)
    v (events s).
Definition set_events (v : list Event) (s : State) : State :=
  mkState (owner s) (isProvider s) (paused s) (cooldownSeconds s) (lastSubmissionTime s)
    (lastDecryptionRequestTime s) (currentBatchId s) (batches s) (decryptionContexts s)
    (counterRequest s) v.

(** Writes to one field of [batches[k]] and of [decryptionContexts[k]]. *)
Definition update_batch (k : N) (f : Batch -> Batch) (s : State) : State :=
  set_batches (<[k := f (batch_at s k)]> (batches s)) s.
Definition update_context (k : N) (f : DecryptionContext -> DecryptionContext) (s : State) : State :=
  set_decryptionContexts (<[k := f (context_at s k)]> (decryptionContexts s)) s.

Definition with_id (v : N) (b : Batch) : Batch :=
  mkBatch v (open b) (dataCount b) (encryptedTotalVibration b) (encryptedMaxTemperature b).
Definition with_open (v : bool) (b : Batch) : Batch :=
  mkBatch (id b) v (dataCount b) (encryptedTotalVibration b) (encryptedMaxTemperature b).
Definition with_dataCount (v : N) (b : Batch) : Batch :=
  mkBatch (id b) (open b) v (encryptedTotalVibration b) (encryptedMaxTemperature b).
Definition with_encryptedTotalVibration (v : ciphertext) (b : Batch) : Batch :=
  mkBatch (id b) (open b) (dataCount b) v (encryptedMaxTemperature b).
Definition with_encryptedMaxTemperature (v : ciphertext) (b : Batch) : Batch :=
  mkBatch (id b) (open b) (dataCount b) (encryptedTotalVibration b) v.
Definition with_processed (v : bool) (c : DecryptionContext) : DecryptionContext :=
  mkContext (batchId c) (stateHash c) v.

(** ** The state-and-revert monad *)

Inductive Result (A : Type) :=
| Ok (a : A) (s : State)
| Revert (e : Error).
Arguments Ok {A} a s.
Arguments Revert {A} e.

Definition M (A : Type) : Type := State -> Result A.

Definition ret {A} (a : A) : M A := fun s => Ok a s.
Definition bind {A B} (m : M A) (k : A -> M B) : M B :=
  fun s => match m s with
           | Ok a s' => k a s'
           | Revert e => Revert e
           end.
Definition revert {A} (e : Error) : M A := fun _ => Revert e.
Definition get {A} (f : State -> A) : M A := fun s => Ok (f s) s.
Definition put (f : State -> State) : M unit := fun s => Ok tt (f s).
Definition emit (e : Event) : M unit := put (fun s => set_events (events s ++ [e]) s).
Definition when (c : bool) (m : M unit) : M unit := if c then m else ret tt.
Definition checked (o : option N) : M N :=
  match o with Some v => ret v | None => revert Panic end.

Declare Scope sol_scope.
Delimit Scope sol_scope with sol.
Notation "'let*' x ':=' m 'in' k" := (bind m (fun x => k))
  (at level 10, x name, m at level 100, k at level 200, right associativity) : sol_scope.
Notation "m '>>' k" := (bind m (fun _ => k))
  (at level 100, k at level 200, right associativity) : sol_scope.

(** ** The contract *)

Section Contract.
Context {engine : FHEEngine}.
Local Open Scope sol_scope.

(** *** The FHE library, as the contract sees it

    [FHE.sol] is an external package.  Its operations are taken from the
    capability interface of the specification; the handles they return
    and the reading of a select control come from the engine. *)

(** Modelled from the spec: [Constant(value) -> Handle], the trivial
    encryption of a 32-bit constant. *)
Definition FHE_asEuint32 (v : Z) : euint32 :=
  Ciphertext (handle_trivial v) (wrap32 v).

(** Modelled from the spec: [Add(Handle, Handle) -> Handle], the sum in
    the accumulator's 32-bit width. *)
Definition FHE_add (a b : euint32) : euint32 :=
  Ciphertext (handle_add (handle a) (handle b)) (wrap32 (clear a + clear b)).

(** Modelled from the spec: [GreaterOrEqual(Handle, Handle) -> BoolHandle],
    an encrypted 1 when the first operand is at least the second, else an
    encrypted 0. *)
Definition FHE_ge (a b : euint32) : ebool :=
  Ciphertext (handle_ge (handle a) (handle b)) (if (clear b <=? clear a)%Z then 1%Z else 0%Z).

(** Modelled from the spec: [Select(BoolHandle, Handle, Handle) -> Handle],
    used there as [Select(cond, ifTrue, ifFalse)]: the first argument is
    the control, the result is the second argument when the control holds
    and the third otherwise.  How a handle in control position is read is
    the engine's [control_true]. *)
Definition FHE_select (control : ebool) (a b : euint32) : euint32 :=
  Ciphertext (handle_select (handle control) (handle a) (handle b))
             (if control_true (clear control) then clear a else clear b).

(** Modelled from the spec: [ExportIdentifier(Handle)], the 32 bytes of
    the handle. *)
Definition FHE_toBytes32 (c : euint32) : bytes32 := handle c.

(** Modelled from the spec: the library's test for a handle that was
    never assigned (the zero handle). *)
Definition FHE_isInitialized (c : euint32) : bool := negb (handle c =? 0).

(** Modelled from the spec: the specification has no initialisation
    capability; [FHE.init] is applied to a by-value copy of a parameter,
    so nothing in the contract's storage changes. *)
Definition FHE_init (c : euint32) : M unit := ret tt.

(** Modelled from the spec: [BeginDecryption(list<Handle>, callback) ->
    requestId].  The library numbers the requests with a counter it keeps
    in the contract's storage, so every request gets an id not used
    before. *)
Definition FHE_requestDecryption (cts : list bytes32) : M uint256 :=
  let* requestID := get counterRequest in
  let* next := checked (checked_add requestID 1) in
  put (set_counterRequest next) >>
  ret requestID.

(** Modelled from the spec: [VerifyProof(requestId, cleartexts, proof) ->
    bool], an opaque predicate of the engine. *)
Definition FHE_checkSignatures (requestId : uint256) (cleartexts proof : bytes) : bool :=
  checkSignatures requestId cleartexts proof.

(** *** ABI helpers *)

(** [abi.encode(cts, addr)] for a [bytes32[]] and an [address], as 32-byte
    words: offset of the array, the address, the length, the elements. *)
Definition abi_encode (cts : list bytes32) (a : address) : list N :=
  64 :: a :: N.of_nat (length cts) :: cts.

(** One big-endian 32-byte word. *)
Definition word_of_bytes (bs : bytes) : N :=
  fold_left (fun acc b => acc * 256 + Byte.to_N b) bs 0.

(** [abi.decode(data, (uint32, uint32))]: two words, each below [2^32];
    anything else reverts. *)
Definition abi_decode_uint32_pair (data : bytes) : option (N * N) :=
  if N.of_nat (length data) <? 64 then None
  else
    let w0 := word_of_bytes (firstn 32 data) in
    let w1 := word_of_bytes (firstn 32 (skipn 32 data)) in
    if (w0 <? 2 ^ 32) && (w1 <? 2 ^ 32) then Some (w0, w1) else None.

(** *** Modifiers *)

Definition onlyOwner (env : Env) (body : M unit) : M unit :=
  let* o := get owner in
  when (negb (msg_sender env =? o)) (revert NotOwner) >>
  body.

Definition onlyProvider (env : Env) (body : M unit) : M unit :=
  let* p := get (fun s => mapping_get false (isProvider s) (msg_sender env)) in
  when (negb p) (revert NotProvider) >>
  body.

Definition whenNotPaused (body : M unit) : M unit :=
  let* p := get paused in
  when p (revert PausedState) >>
  body.

Definition respectCooldown (env : Env) (_address : address) (_lastTime : State -> uint256)
    (body : M unit) : M unit :=
  let* last := get _lastTime in
  let* cd := get cooldownSeconds in
  let* deadline := checked (checked_add last cd) in
  when (block_timestamp env <? deadline) (revert CooldownActive) >>
  body.

(** *** Constructor and external functions *)

Definition constructor (env : Env) : State :=
  mkState (msg_sender env) ∅ false 60 ∅ ∅ 0 ∅ ∅ 0
          [OwnershipTransferred address_zero (msg_sender env)].

Definition transferOwnership (env : Env) (newOwner : address) : M unit :=
  onlyOwner env (
    let* o := get owner in
    emit (OwnershipTransferred o newOwner) >>
    put (set_owner newOwner)).

Definition addProvider (env : Env) (provider : address) : M unit :=
  onlyOwner env (
    put (fun s => set_isProvider (<[provider := true]> (isProvider s)) s) >>
    emit (ProviderAdded provider)).

Definition removeProvider (env : Env) (provider : address) : M unit :=
  onlyOwner env (
    put (fun s => set_isProvider (delete provider (isProvider s)) s) >>
    emit (ProviderRemoved provider)).

Definition setPaused (env : Env) (_paused : bool) : M unit :=
  onlyOwner env (
    if _paused then
      put (set_paused true) >>
      emit (Paused (msg_sender env))
    else
      put (set_paused false) >>
      emit (Unpaused (msg_sender env))).

Definition setCooldownSeconds (env : Env) (_cooldownSeconds : uint256) : M unit :=
  onlyOwner env (
    let* old := get cooldownSeconds in
    emit (CooldownSecondsSet old _cooldownSeconds) >>
    put (set_cooldownSeconds _cooldownSeconds)).

Definition openBatch (env : Env) : M unit :=
  onlyOwner env (whenNotPaused (
    let* isOpen := get (fun s => open (batch_at s (currentBatchId s))) in
    when isOpen (revert BatchOpen) >>
    let* cur := get currentBatchId in
    let* next := checked (checked_add cur 1) in
    put (set_currentBatchId next) >>
    put (update_batch next (with_id next)) >>
    put (update_batch next (with_open true)) >>
    put (update_batch next (with_dataCount 0)) >>
    put (update_batch next (with_encryptedTotalVibration (FHE_asEuint32 0))) >>
    put (update_batch next (with_encryptedMaxTemperature (FHE_asEuint32 0))) >>
    emit (BatchOpened next))).

Definition closeBatch (env : Env) : M unit :=
  onlyOwner env (whenNotPaused (
    let* isOpen := get (fun s => open (batch_at s (currentBatchId s))) in
    when (negb isOpen) (revert BatchNotOpen) >>
    let* cur := get currentBatchId in
    put (update_batch cur (with_open false)) >>
    emit (BatchClosed cur))).

Definition _initIfNeeded (cipher : euint32) : M unit :=
  when (negb (FHE_isInitialized cipher)) (FHE_init cipher).

Definition submitData (env : Env) (encryptedVibration encryptedTemperature : euint32) : M unit :=
  onlyProvider env (whenNotPaused (
  respectCooldown env (msg_sender env)
    (fun s => mapping_get 0 (lastSubmissionTime s) (msg_sender env)) (
    let* isOpen := get (fun s => open (batch_at s (currentBatchId s))) in
    when (negb isOpen) (revert BatchNotOpen) >>
    _initIfNeeded encryptedVibration >>
    _initIfNeeded encryptedTemperature >>
    let* cur := get currentBatchId in
    let* count := get (fun s => dataCount (batch_at s cur)) in
    let* count' := checked (checked_add count 1) in
    put (update_batch cur (with_dataCount count')) >>
    let* total := get (fun s => encryptedTotalVibration (batch_at s cur)) in
    put (update_batch cur (with_encryptedTotalVibration (FHE_add total encryptedVibration))) >>
    let* maxT := get (fun s => encryptedMaxTemperature (batch_at s cur)) in
    let isGreater := FHE_ge encryptedTemperature maxT in
    let* maxT' := get (fun s => encryptedMaxTemperature (batch_at s cur)) in
    put (update_batch cur
           (with_encryptedMaxTemperature (FHE_select maxT' encryptedTemperature isGreater))) >>
    put (fun s => set_lastSubmissionTime
                    (<[msg_sender env := block_timestamp env]> (lastSubmissionTime s)) s) >>
    let* count'' := get (fun s => dataCount (batch_at s cur)) in
    emit (DataSubmitted (msg_sender env) cur count'')))).

Definition _hashCiphertexts (cts : list bytes32) : bytes32 :=
  keccak256 (abi_encode cts this).

Definition requestBatchDecryption (env : Env) (batchId : uint256) : M unit :=
  onlyOwner env (whenNotPaused (
  respectCooldown env (msg_sender env)
    (fun s => mapping_get 0 (lastDecryptionRequestTime s) (msg_sender env)) (
    let* cur := get currentBatchId in
    let* isOpen := get (fun s => open (batch_at s batchId)) in
    when ((batchId =? 0) || (cur <? batchId) || isOpen) (revert InvalidBatch) >>
    let* totalVibration := get (fun s => encryptedTotalVibration (batch_at s batchId)) in
    let* maxTemperature := get (fun s => encryptedMaxTemperature (batch_at s batchId)) in
    let cts := [FHE_toBytes32 totalVibration; FHE_toBytes32 maxTemperature] in
    let stateHash := _hashCiphertexts cts in
    let* requestId := FHE_requestDecryption cts in
    put (fun s => set_decryptionContexts
                    (<[requestId := mkContext batchId stateHash false]> (decryptionContexts s)) s) >>
    put (fun s => set_lastDecryptionRequestTime
                    (<[msg_sender env := block_timestamp env]> (lastDecryptionRequestTime s)) s) >>
    emit (DecryptionRequested requestId batchId)))).

Definition myCallback (requestId : uint256) (cleartexts proof : bytes) : M unit :=
  let* isProcessed := get (fun s => processed (context_at s requestId)) in
  when isProcessed (revert ReplayAttempt) >>
  let* batchId := get (fun s => batchId (context_at s requestId)) in
  let* cur := get currentBatchId in
  when ((batchId =? 0) || (cur <? batchId)) (revert InvalidBatch) >>
  let* totalVibration := get (fun s => encryptedTotalVibration (batch_at s batchId)) in
  let* maxTemperature := get (fun s => encryptedMaxTemperature (batch_at s batchId)) in
  let cts := [FHE_toBytes32 totalVibration; FHE_toBytes32 maxTemperature] in
  let currentHash := _hashCiphertexts cts in
  let* stored := get (fun s => stateHash (context_at s requestId)) in
  when (negb (currentHash =? stored)) (revert StateMismatch) >>
  when (negb (FHE_checkSignatures requestId cleartexts proof)) (revert DecryptionFailed) >>
  match abi_decode_uint32_pair cleartexts with
  | None => revert AbiDecode
  | Some (totalVibrationCleartext, maxTemperatureCleartext) =>
      put (update_context requestId (with_processed true)) >>
      emit (DecryptionCompleted requestId batchId totalVibrationCleartext maxTemperatureCleartext)
  end.

(** *** Transactions

    A call either commits the state its body returns or, on a revert,
    leaves the state as it was. *)

Inductive Call :=
| TransferOwnership (newOwner : address)
| AddProvider (provider : address)
| RemoveProvider (provider : address)
| SetPaused (_paused : bool)
| SetCooldownSeconds (_cooldownSeconds : uint256)
| OpenBatch
| CloseBatch
| SubmitData (encryptedVibration encryptedTemperature : euint32)
| RequestBatchDecryption (batchId : uint256)
| MyCallback (requestId : uint256) (cleartexts proof : bytes).

Definition run (env : Env) (c : Call) : M unit :=
  match c with
  | TransferOwnership newOwner => transferOwnership env newOwner
  | AddProvider provider => addProvider env provider
  | RemoveProvider provider => removeProvider env provider
  | SetPaused p => setPaused env p
  | SetCooldownSeconds c => setCooldownSeconds env c
  | OpenBatch => openBatch env
  | CloseBatch => closeBatch env
  | SubmitData v t => submitData env v t
  | RequestBatchDecryption b => requestBatchDecryption env b
  | MyCallback r c p => myCallback r c p
  end.

Definition transact (env : Env) (c : Call) (s : State) : State :=
  match run env c s with
  | Ok _ s' => s'
  | Revert _ => s
  end.

Definition outcome (env : Env) (c : Call) (s : State) : option Error :=
  match run env c s with
  | Ok _ _ => None
  | Revert e => Some e
  end.

(** The states the contract can be in: deployed by someone, then any
    calls by anyone at any time. *)
Inductive reachable : State -> Prop :=
| reachable_deploy env : reachable (constructor env)
| reachable_call env c s : reachable s -> reachable (transact env c s).

(** Running a list of calls, each in its own transaction. *)
Definition transact_all (txs : list (Env * Call)) (s : State) : State :=
  fold_left (fun st tx => transact (fst tx) (snd tx) st) txs s.

End Contract.

(** ** A reference engine

    A small concrete engine used to run the contract on concrete inputs:
    handles are derived arithmetically, a select control counts as true
    when its cleartext is not zero, and a proof is accepted when it is
    not empty. *)

Module Mock.

Definition digest (ws : list N) : N :=
  fold_left (fun acc w => (acc * 31 + w + 7) mod 2 ^ 256) ws 0.

#[global] Instance engine : FHEEngine := {|
  this := 4096;
  keccak256 := digest;
  handle_trivial := fun v => 1 + Z.to_N (wrap32 v);
  handle_add := fun a b => 2 + 3 * (a + b);
  handle_ge := fun a b => 5 + 7 * a + 11 * b;
  handle_select := fun c a b => 13 + 17 * c + 19 * a + 23 * b;
  control_true := fun z => negb (z =? 0)%Z;
  checkSignatures := fun _ _ proof => negb (Nat.eqb (length proof) 0)
|}.

Definition alice : address := 1.   (* deployer and owner *)
Definition bob : address := 2.     (* a provider *)
Definition carol : address := 3.   (* a stranger *)

Definition at_time (who : address) (t : uint256) : Env := mkEnv who t.

(** An input ciphertext for the cleartext [v], as a provider would submit it. *)
Definition enc (h : bytes32) (v : Z) : euint32 := Ciphertext h v.

(** 64 bytes holding the pair [(a, b)], both below 256. *)
Definition pair_bytes (a b : Byte.byte) : bytes :=
  repeat Byte.x00 31 ++ [a] ++ repeat Byte.x00 31 ++ [b].

Definition deployed : State := constructor (at_time alice 1000).

(** Owner registers bob and opens batch 1. *)
Definition opened : State :=
  transact_all [ (at_time alice 1001, AddProvider bob);
                 (at_time alice 1002, OpenBatch) ] deployed.

(** Batch 1 with the readings (5, 10) and (3, 20), then closed. *)
Definition closed : State :=
  transact_all [ (at_time bob 2000, SubmitData (enc 101 5) (enc 102 10));
                 (at_time bob 3000, SubmitData (enc 103 3) (enc 104 20));
                 (at_time alice 4000, CloseBatch) ] opened.

(** A decryption of batch 1 was requested: request id 0. *)
Definition requested : State :=
  transact (at_time alice 5000) (RequestBatchDecryption 1) closed.

(** The engine answered request 0 with a valid proof. *)
Definition completed : State :=
  transact (at_time carol 6000)
           (MyCallback 0 (pair_bytes Byte.x08 Byte.x14) [Byte.x01]) requested.

(** The deployment with bob registered, before any batch. *)
Definition registered : State :=
  transact (at_time alice 1001) (AddProvider bob) deployed.

(** Batch 1 receives the temperatures 20 and then 5. *)
Definition falling : list (Env * Call) :=
  [ (at_time bob 2000, SubmitData (enc 101 5) (enc 102 20));
    (at_time bob 3000, SubmitData (enc 103 3) (enc 104 5)) ].

(** Batch 1 open with one reading in it, then the contract is paused. *)
Definition paused_open : State :=
  transact_all [ (at_time bob 2000, SubmitData (enc 101 5) (enc 102 10));
                 (at_time alice 2500, SetPaused true) ] opened.


(** The deployment, paused by its owner. *)
Definition paused_deployment : State :=
  transact (at_time alice 1001) (SetPaused true) deployed.

End Mock.

(** ** Vocabulary of the properties *)

Section Vocabulary.
Context {engine : FHEEngine}.

(** The functions that carry the [onlyOwner] modifier. *)
Definition owner_gated (c : Call) : bool :=
  match c with
  | TransferOwnership _ | AddProvider _ | RemoveProvider _ | SetPaused _
  | SetCooldownSeconds _ | OpenBatch | CloseBatch | RequestBatchDecryption _ => true
  | SubmitData _ _ | MyCallback _ _ _ => false
  end.

(** The digest [myCallback] and [requestBatchDecryption] compute for batch [b]. *)
Definition batch_digest (s : State) (b : uint256) : bytes32 :=
  _hashCiphertexts [FHE_toBytes32 (encryptedTotalVibration (batch_at s b));
                    FHE_toBytes32 (encryptedMaxTemperature (batch_at s b))].

(** The state a successful callback commits. *)
Definition completed_state (requestId : uint256) (total maxT : N) (s : State) : State :=
  let s1 := update_context requestId (with_processed true) s in
  set_events (events s1 ++ [DecryptionCompleted requestId (batchId (context_at s requestId))
                                                total maxT]) s1.

(** Request ids not yet handed out have no context. *)
Definition fresh_ids (s : State) : Prop :=
  forall requestId, counterRequest s <= requestId -> decryptionContexts s !! requestId = None.

(** The batch ids announced by [BatchOpened] events, in log order. *)
Definition opened_ids (log : list Event) : list uint256 :=
  flat_map (fun e => match e with BatchOpened b => [b] | _ => [] end) log.

(** The ids [1, 2, ..., n]. *)
Definition ids_up_to (n : uint256) : list uint256 :=
  map N.of_nat (seq 1 (N.to_nat n)).

(** The ledger's invariant: the allocated batches are exactly those
    numbered 1 to [currentBatchId], there are [currentBatchId] of them,
    they were opened in that order, each carries its own number, and
    only the one numbered [currentBatchId] can be open. *)
Record batch_inv (s : State) : Prop := {
  inv_allocated : forall k, is_Some (batches s !! k) <-> 1 <= k <= currentBatchId s;
  inv_count : size (batches s) = N.to_nat (currentBatchId s);
  inv_order : opened_ids (events s) = ids_up_to (currentBatchId s);
  inv_id : forall k b, batches s !! k = Some b -> id b = k;
  inv_open : forall k b, batches s !! k = Some b -> open b = true -> k = currentBatchId s
}.

(** The readings (vibration, temperature), as cleartexts, that a run of
    transactions from [s] adds to batch [k]: those of the [submitData]
    calls that go through while [k] is the current batch. *)
Definition accepted (env : Env) (c : Call) (s : State) (k : uint256) : list (Z * Z) :=
  match c, run env c s with
  | SubmitData v t, Ok _ _ => if currentBatchId s =? k then [(clear v, clear t)] else []
  | _, _ => []
  end.

Fixpoint submitted (txs : list (Env * Call)) (s : State) (k : uint256) : list (Z * Z) :=
  match txs with
  | [] => []
  | (env, c) :: rest => accepted env c s k ++ submitted rest (transact env c s) k
  end.

Definition vibrations (readings : list (Z * Z)) : list Z := map fst readings.
Definition temperatures (readings : list (Z * Z)) : list Z := map snd readings.

Definition sumZ (l : list Z) : Z := fold_right Z.add 0%Z l.
Definition maxZ (l : list Z) : Z := fold_right Z.max 0%Z l.

(** The 32-bit running sum, folded from the left as the submissions arrive. *)
Definition running_sum (start : Z) (vs : list Z) : Z :=
  fold_left (fun acc v => wrap32 (acc + v)) vs start.

(** The states the batch operations and a request commit. *)
Definition opened_state (s : State) : State :=
  let next := currentBatchId s + 1 in
  set_events (events s ++ [BatchOpened next])
    (set_batches (<[next := mkBatch next true 0 (FHE_asEuint32 0) (FHE_asEuint32 0)]> (batches s))
       (set_currentBatchId next s)).

Definition closed_state (s : State) : State :=
  let cur := currentBatchId s in
  set_events (events s ++ [BatchClosed cur])
    (update_batch cur (with_open false) s).

Definition submitted_batch (v t : euint32) (b : Batch) : Batch :=
  mkBatch (id b) (open b) (dataCount b + 1)
          (FHE_add (encryptedTotalVibration b) v)
          (FHE_select (encryptedMaxTemperature b) t (FHE_ge t (encryptedMaxTemperature b))).

Definition submitted_state (env : Env) (v t : euint32) (s : State) : State :=
  let cur := currentBatchId s in
  set_events (events s ++ [DataSubmitted (msg_sender env) cur (dataCount (batch_at s cur) + 1)])
    (set_lastSubmissionTime (<[msg_sender env := block_timestamp env]> (lastSubmissionTime s))
       (update_batch cur (submitted_batch v t) s)).

Definition requested_state (env : Env) (b : uint256) (s : State) : State :=
  let requestId := counterRequest s in
  set_events (events s ++ [DecryptionRequested requestId b])
    (set_lastDecryptionRequestTime
       (<[msg_sender env := block_timestamp env]> (lastDecryptionRequestTime s))
       (set_decryptionContexts
          (<[requestId := mkContext b (batch_digest s b) false]> (decryptionContexts s))
          (set_counterRequest (requestId + 1) s))).

(** The event a call of each kind logs when it goes through. *)
Definition announces (c : Call) (e : Event) : Prop :=
  match c, e with
  | TransferOwnership o, OwnershipTransferred _ o' => o' = o
  | AddProvider p, ProviderAdded p' => p' = p
  | RemoveProvider p, ProviderRemoved p' => p' = p
  | SetPaused true, Paused _ => True
  | SetPaused false, Unpaused _ => True
  | SetCooldownSeconds c, CooldownSecondsSet _ c' => c' = c
  | OpenBatch, BatchOpened _ => True
  | CloseBatch, BatchClosed _ => True
  | SubmitData _ _, DataSubmitted _ _ _ => True
  | RequestBatchDecryption b, DecryptionRequested _ b' => b' = b
  | MyCallback r _ _, DecryptionCompleted r' _ _ _ => r' = r
  | _, _ => False
  end.

(** The request ids announced by [DecryptionRequested] and by
    [DecryptionCompleted] events, in log order. *)
Definition requested_ids (log : list Event) : list uint256 :=
  flat_map (fun e => match e with DecryptionRequested r _ => [r] | _ => [] end) log.
Definition completed_ids (log : list Event) : list uint256 :=
  flat_map (fun e => match e with DecryptionCompleted r _ _ _ => [r] | _ => [] end) log.

(** The ids [0, 1, ..., n - 1]. *)
Definition ids_below (n : uint256) : list uint256 :=
  map N.of_nat (seq 0 (N.to_nat n)).

(** The bridge's invariant: contexts exist exactly under the request ids
    handed out; each refers to an allocated, closed batch and stores the
    digest of that batch's present accumulators. *)
Record context_inv (s : State) : Prop := {
  cinv_issued : forall r, is_Some (decryptionContexts s !! r) <-> r < counterRequest s;
  cinv_batch : forall r ctx, decryptionContexts s !! r = Some ctx ->
                 1 <= batchId ctx <= currentBatchId s /\
                 open (batch_at s (batchId ctx)) = false;
  cinv_digest : forall r ctx, decryptionContexts s !! r = Some ctx ->
                 stateHash ctx = batch_digest s (batchId ctx)
}.

(** The log agrees with the bridge: requests were numbered 0, 1, 2, ...
    in order, no request id was completed twice, and the completed ids
    are those whose context is processed. *)
Record log_inv (s : State) : Prop := {
  linv_requested : requested_ids (events s) = ids_below (counterRequest s);
  linv_once : NoDup (completed_ids (events s));
  linv_processed : forall r, In r (completed_ids (events s)) <->
                             processed (context_at s r) = true
}.


Definition readings (subs : list (Env * euint32 * euint32)) : list (Z * Z) :=
  map (fun sub => (clear (snd (fst sub)), clear (snd sub))) subs.



(** The facts a completion event stands for. *)
Definition completion_sound (s : State) (r b t m : N) : Prop :=
  r < counterRequest s /\
  1 <= b <= currentBatchId s /\
  t < 2 ^ 32 /\ m < 2 ^ 32 /\
  batchId (context_at s r) = b /\
  processed (context_at s r) = true.

End Vocabulary.

(** * Properties *)

(** ** Proof support *)

Ltac sol_unfold :=
  unfold transact, outcome, run,
    transferOwnership, addProvider, removeProvider, setPaused, setCooldownSeconds,
    openBatch, closeBatch, submitData, requestBatchDecryption, myCallback,
    onlyOwner, onlyProvider, whenNotPaused, respectCooldown,
    _initIfNeeded, FHE_init, FHE_requestDecryption,
    emit, checked, when, bind, ret, get, put, revert in *.

(** One case split on the next test the body performs. *)
Ltac sol_step :=
  match goal with
  | |- context [match checked_add ?a ?b with _ => _ end] =>
      destruct (checked_add a b) eqn:?
  | |- context [match abi_decode_uint32_pair ?c with _ => _ end] =>
      destruct (abi_decode_uint32_pair c) as [[? ?] |] eqn:?
  | |- context [if ?b then _ else _] =>
      lazymatch type of b with bool => destruct b eqn:? end
  end.

Ltac sol_cases := simpl; repeat (sol_step; simpl).

Lemma checked_add_Some a b : a + b <= MAX_UINT256 -> checked_add a b = Some (a + b).
Proof.
  intros H. unfold checked_add.
  destruct (N.leb_spec (a + b) MAX_UINT256); [reflexivity | lia].
Qed.

Lemma checked_add_inv a b c : checked_add a b = Some c -> c = a + b /\ a + b <= MAX_UINT256.
Proof.
  unfold checked_add.
  destruct (N.leb_spec (a + b) MAX_UINT256); intros [= <-]; split; [reflexivity | assumption].
Qed.

Lemma negb_eqb_same (a : N) : negb (a =? a) = false.
Proof. rewrite N.eqb_refl. reflexivity. Qed.

(** ** Request validation *)

Section RequestValidation.
Context {engine : FHEEngine}.

(** C6.  A decryption request by the owner, with the contract not paused
    and the cooldown elapsed, for a batch id that is 0, above the highest
    allocated id, or of a batch that is still open, reverts with
    [InvalidBatch]; the transaction leaves the whole state, and so the
    table of decryption contexts, as it was. *)
Theorem requestBatchDecryption_invalid (env : Env) (batchId : uint256) (s : State) :
  msg_sender env = owner s ->
  paused s = false ->
  mapping_get 0 (lastDecryptionRequestTime s) (msg_sender env) + cooldownSeconds s
    <= block_timestamp env ->
  block_timestamp env <= MAX_UINT256 ->
  batchId = 0 \/ currentBatchId s < batchId \/ open (batch_at s batchId) = true ->
  requestBatchDecryption env batchId s = Revert InvalidBatch /\
  transact env (RequestBatchDecryption batchId) s = s /\
  decryptionContexts (transact env (RequestBatchDecryption batchId) s) = decryptionContexts s.
Proof.
  intros Hown Hp Hcd Hts Hbad.
  assert (Hrun : requestBatchDecryption env batchId s = Revert InvalidBatch).
  { sol_unfold. rewrite Hown, negb_eqb_same, Hp. rewrite <- Hown.
    rewrite checked_add_Some by lia.
    destruct (N.ltb_spec (block_timestamp env)
                (mapping_get 0 (lastDecryptionRequestTime s) (msg_sender env)
                 + cooldownSeconds s)) as [Hlt | _]; [lia |].
    assert (Hguard : (batchId =? 0) || (currentBatchId s <? batchId)
                     || open (batch_at s batchId) = true).
    { destruct Hbad as [-> | [Hgt | Hopen]].
      - reflexivity.
      - apply N.ltb_lt in Hgt. rewrite Hgt. apply orb_true_iff. left.
        apply orb_true_r.
      - rewrite Hopen. apply orb_true_r. }
    rewrite Hguard. reflexivity. }
  split; [exact Hrun |].
  unfold transact, run. rewrite Hrun. split; reflexivity.
Qed.

End RequestValidation.

(** The owner asks for batch 1 of the reference run while it is still open. *)
Lemma requestBatchDecryption_invalid_witness :
  requestBatchDecryption (Mock.at_time Mock.alice 5000) 1 Mock.opened = Revert InvalidBatch /\
  transact (Mock.at_time Mock.alice 5000) (RequestBatchDecryption 1) Mock.opened = Mock.opened /\
  decryptionContexts
    (transact (Mock.at_time Mock.alice 5000) (RequestBatchDecryption 1) Mock.opened)
  = decryptionContexts Mock.opened.
Proof.
  apply (requestBatchDecryption_invalid (Mock.at_time Mock.alice 5000) 1 Mock.opened).
  - reflexivity.
  - reflexivity.
  - vm_compute. intros H; discriminate H.
  - vm_compute. intros H; discriminate H.
  - right; right. reflexivity.
Defined.

(** ** The pause flag *)

Section PauseGate.
Context {engine : FHEEngine}.

(** Every owner-only function lets the owner through its first gate. *)
Lemma onlyOwner_pass (env : Env) (body : M unit) (s : State) :
  msg_sender env = owner s -> onlyOwner env body s = body s.
Proof.
  intros H. unfold onlyOwner, bind, get, when, ret. rewrite H, negb_eqb_same. reflexivity.
Qed.

Lemma onlyOwner_fail (env : Env) (body : M unit) (s : State) :
  msg_sender env <> owner s -> onlyOwner env body s = Revert NotOwner.
Proof.
  intros H. unfold onlyOwner, bind, get, when, revert.
  destruct (N.eqb_spec (msg_sender env) (owner s)); [contradiction | reflexivity].
Qed.

Lemma whenNotPaused_fail (body : M unit) (s : State) :
  paused s = true -> whenNotPaused body s = Revert PausedState.
Proof.
  intros H. unfold whenNotPaused, bind, get, when, revert. rewrite H. reflexivity.
Qed.

(** C7, as the code has it.  With the pause flag set, the owner's
    [openBatch], [closeBatch] and [requestBatchDecryption] revert with
    [PausedState] and leave the state as it was; [addProvider],
    [removeProvider], [setCooldownSeconds], [setPaused] and
    [transferOwnership] carry no pause gate and take effect. *)
Theorem paused_owner_operations (env : Env) (s : State) :
  paused s = true ->
  msg_sender env = owner s ->
  (openBatch env s = Revert PausedState /\ transact env OpenBatch s = s) /\
  (closeBatch env s = Revert PausedState /\ transact env CloseBatch s = s) /\
  (forall b, requestBatchDecryption env b s = Revert PausedState /\
             transact env (RequestBatchDecryption b) s = s) /\
  (forall p, exists s', addProvider env p s = Ok tt s' /\
                        mapping_get false (isProvider s') p = true) /\
  (forall p, exists s', removeProvider env p s = Ok tt s' /\
                        mapping_get false (isProvider s') p = false) /\
  (forall c, exists s', setCooldownSeconds env c s = Ok tt s' /\ cooldownSeconds s' = c) /\
  (forall b, exists s', setPaused env b s = Ok tt s' /\ paused s' = b) /\
  (forall o, exists s', transferOwnership env o s = Ok tt s' /\ owner s' = o).
Proof.
  intros Hp Hown.
  assert (Hopen : openBatch env s = Revert PausedState).
  { unfold openBatch. rewrite onlyOwner_pass by exact Hown. apply whenNotPaused_fail, Hp. }
  assert (Hclose : closeBatch env s = Revert PausedState).
  { unfold closeBatch. rewrite onlyOwner_pass by exact Hown. apply whenNotPaused_fail, Hp. }
  assert (Hreq : forall b, requestBatchDecryption env b s = Revert PausedState).
  { intros b. unfold requestBatchDecryption.
    rewrite onlyOwner_pass by exact Hown. apply whenNotPaused_fail, Hp. }
  repeat split.
  - exact Hopen.
  - unfold transact, run. rewrite Hopen. reflexivity.
  - exact Hclose.
  - unfold transact, run. rewrite Hclose. reflexivity.
  - apply Hreq.
  - unfold transact, run. rewrite Hreq. reflexivity.
  - intros p. unfold addProvider. rewrite onlyOwner_pass by exact Hown.
    eexists. split; [reflexivity |].
    unfold mapping_get. simpl. rewrite lookup_insert_eq. reflexivity.
  - intros p. unfold removeProvider. rewrite onlyOwner_pass by exact Hown.
    eexists. split; [reflexivity |].
    unfold mapping_get. simpl. rewrite lookup_delete_eq. reflexivity.
  - intros c. unfold setCooldownSeconds. rewrite onlyOwner_pass by exact Hown.
    eexists. split; reflexivity.
  - intros b. unfold setPaused. rewrite onlyOwner_pass by exact Hown.
    destruct b; eexists; split; reflexivity.
  - intros o. unfold transferOwnership. rewrite onlyOwner_pass by exact Hown.
    eexists. split; reflexivity.
Qed.

End PauseGate.

(** C7 as stated fails: while paused, the owner's [addProvider] goes
    through and changes the provider table. *)
Lemma paused_addProvider_not_rejected :
  paused Mock.paused_deployment = true /\
  msg_sender (Mock.at_time Mock.alice 1002) = owner Mock.paused_deployment /\
  outcome (Mock.at_time Mock.alice 1002) (AddProvider Mock.bob) Mock.paused_deployment
    <> Some PausedState /\
  outcome (Mock.at_time Mock.alice 1002) (AddProvider Mock.bob) Mock.paused_deployment = None /\
  mapping_get false (isProvider Mock.paused_deployment) Mock.bob = false /\
  mapping_get false
    (isProvider (transact (Mock.at_time Mock.alice 1002) (AddProvider Mock.bob)
                          Mock.paused_deployment)) Mock.bob = true.
Proof.
  repeat split; try reflexivity.
  vm_compute. intros H; discriminate H.
Qed.

Lemma paused_owner_operations_witness :
  openBatch (Mock.at_time Mock.alice 1002) Mock.paused_deployment = Revert PausedState /\
  exists s', addProvider (Mock.at_time Mock.alice 1002) Mock.bob Mock.paused_deployment = Ok tt s' /\
             mapping_get false (isProvider s') Mock.bob = true.
Proof.
  destruct (paused_owner_operations (Mock.at_time Mock.alice 1002) Mock.paused_deployment)
    as [[Ho _] [_ [_ [Ha _]]]].
  - reflexivity.
  - reflexivity.
  - split; [exact Ho | exact (Ha Mock.bob)].
Defined.

(** ** Ownership *)

Section Ownership.
Context {engine : FHEEngine}.

(** Only a transfer by the owner changes the owner. *)
Lemma owner_transact (env : Env) (c : Call) (s : State) :
  owner (transact env c s) = owner s \/
  (msg_sender env = owner s /\ exists o, c = TransferOwnership o).
Proof.
  destruct c; sol_unfold; sol_cases; simpl; auto.
  right. split; [| eexists; reflexivity].
  match goal with H : negb (_ =? _) = false |- _ =>
    apply negb_false_iff, N.eqb_eq in H; exact H end.
Qed.

Lemma owner_zero_transact (env : Env) (c : Call) (s : State) :
  owner s = address_zero -> msg_sender env <> address_zero ->
  owner (transact env c s) = address_zero.
Proof.
  intros Hz Hne. destruct (owner_transact env c s) as [-> | [Heq _]]; [exact Hz |].
  congruence.
Qed.

Lemma owner_zero_transact_all (txs : list (Env * Call)) (s : State) :
  owner s = address_zero ->
  Forall (fun tx => msg_sender (fst tx) <> address_zero) txs ->
  owner (transact_all txs s) = address_zero.
Proof.
  revert s. induction txs as [| [env c] txs IH]; intros s Hz Hall; simpl.
  - exact Hz.
  - inversion Hall as [| ? ? Hhd Htl]; subst. apply IH; [| exact Htl].
    apply owner_zero_transact; assumption.
Qed.

Lemma owner_gated_NotOwner (env : Env) (c : Call) (s : State) :
  owner_gated c = true -> msg_sender env <> owner s -> outcome env c s = Some NotOwner.
Proof.
  intros Hg Hne. unfold outcome, run.
  destruct c; try discriminate Hg;
    unfold transferOwnership, addProvider, removeProvider, setPaused, setCooldownSeconds,
      openBatch, closeBatch, requestBatchDecryption;
    rewrite onlyOwner_fail by exact Hne; reflexivity.
Qed.

(** C10.  A transfer of ownership called by the owner succeeds for every
    new owner, the zero address included, and installs it.  After a
    transfer to the zero address the owner stays zero through any later
    calls, and every owner-only function called from a (non-zero) account
    reverts with [NotOwner]. *)
Theorem transferOwnership_any_address (env : Env) (s : State) :
  msg_sender env = owner s ->
  (forall newOwner, exists s', transferOwnership env newOwner s = Ok tt s' /\
                               owner s' = newOwner /\
                               transact env (TransferOwnership newOwner) s = s') /\
  owner (transact env (TransferOwnership address_zero) s) = address_zero /\
  (forall txs env' c,
      Forall (fun tx => msg_sender (fst tx) <> address_zero) txs ->
      msg_sender env' <> address_zero ->
      owner_gated c = true ->
      outcome env' c (transact_all txs (transact env (TransferOwnership address_zero) s))
      = Some NotOwner).
Proof.
  intros Hown.
  assert (Hrun : forall o, transferOwnership env o s
                 = Ok tt (set_owner o (set_events (events s ++ [OwnershipTransferred (owner s) o]) s))).
  { intros o. unfold transferOwnership. rewrite onlyOwner_pass by exact Hown. reflexivity. }
  assert (Hz : owner (transact env (TransferOwnership address_zero) s) = address_zero).
  { unfold transact, run. rewrite Hrun. reflexivity. }
  split; [| split].
  - intros o. eexists. split; [apply Hrun |]. split; [reflexivity |].
    unfold transact, run. rewrite Hrun. reflexivity.
  - exact Hz.
  - intros txs env' c Hall Hne Hg. apply owner_gated_NotOwner; [exact Hg |].
    rewrite owner_zero_transact_all; assumption.
Qed.

End Ownership.

Lemma transferOwnership_any_address_witness :
  owner (transact (Mock.at_time Mock.alice 1001) (TransferOwnership address_zero) Mock.deployed)
  = address_zero /\
  outcome (Mock.at_time Mock.alice 1003) OpenBatch
    (transact_all [(Mock.at_time Mock.carol 1002, OpenBatch)]
       (transact (Mock.at_time Mock.alice 1001) (TransferOwnership address_zero) Mock.deployed))
  = Some NotOwner.
Proof.
  destruct (transferOwnership_any_address (Mock.at_time Mock.alice 1001) Mock.deployed)
    as [_ [Hz Hlock]].
  - reflexivity.
  - split; [exact Hz |].
    apply Hlock.
    + repeat constructor; simpl; intros H; discriminate H.
    + simpl; intros H; discriminate H.
    + reflexivity.
Defined.

(** ** The decryption callback *)

Section Callback.
Context {engine : FHEEngine}.

(** The callback as a decision list: its checks in order, then the commit. *)
Lemma myCallback_cases (requestId : uint256) (cleartexts proof : bytes) (s : State) :
  myCallback requestId cleartexts proof s =
  let ctx := context_at s requestId in
  if processed ctx then Revert ReplayAttempt
  else if (batchId ctx =? 0) || (currentBatchId s <? batchId ctx) then Revert InvalidBatch
  else if negb (batch_digest s (batchId ctx) =? stateHash ctx) then Revert StateMismatch
  else if negb (FHE_checkSignatures requestId cleartexts proof) then Revert DecryptionFailed
  else match abi_decode_uint32_pair cleartexts with
       | None => Revert AbiDecode
       | Some (total, maxT) => Ok tt (completed_state requestId total maxT s)
       end.
Proof.
  unfold batch_digest, completed_state. sol_unfold. sol_cases; reflexivity.
Qed.

Lemma context_at_None (s : State) (requestId : uint256) :
  decryptionContexts s !! requestId = None -> context_at s requestId = zeroContext.
Proof. intros H. unfold context_at, mapping_get. rewrite H. reflexivity. Qed.

Lemma context_at_Some (s : State) (requestId : uint256) (ctx : DecryptionContext) :
  decryptionContexts s !! requestId = Some ctx -> context_at s requestId = ctx.
Proof. intros H. unfold context_at, mapping_get. rewrite H. reflexivity. Qed.

(** C5, as the code has it.  A callback for a request id under which no
    context was ever stored reads the zero context, passes the replay
    check and reverts with [InvalidBatch] on its batch id 0. *)
Theorem myCallback_unknown_request (requestId : uint256) (cleartexts proof : bytes) (s : State) :
  decryptionContexts s !! requestId = None ->
  myCallback requestId cleartexts proof s = Revert InvalidBatch.
Proof.
  intros H. rewrite myCallback_cases, (context_at_None _ _ H). reflexivity.
Qed.

(** What a successful request stores. *)
Lemma requestBatchDecryption_Ok (env : Env) (b : uint256) (s s' : State) :
  requestBatchDecryption env b s = Ok tt s' ->
  decryptionContexts s' =
    <[counterRequest s := mkContext b (batch_digest s b) false]> (decryptionContexts s) /\
  counterRequest s' = counterRequest s + 1 /\
  batches s' = batches s /\ currentBatchId s' = currentBatchId s /\
  b <> 0 /\ b <= currentBatchId s /\ open (batch_at s b) = false.
Proof.
  unfold batch_digest. sol_unfold. sol_cases; intros [= <-]; simpl.
  match goal with H : checked_add (counterRequest s) 1 = Some _ |- _ =>
    apply checked_add_inv in H; destruct H as [-> _] end.
  match goal with H : _ || _ || _ = false |- _ =>
    apply orb_false_iff in H; destruct H as [H Ho];
    apply orb_false_iff in H; destruct H as [Hz Hr] end.
  apply N.eqb_neq in Hz. apply N.ltb_ge in Hr.
  repeat split; try reflexivity; assumption.
Qed.

(** What a transaction can do to the table of contexts: nothing, store a
    new unprocessed context under the next request id, or mark an
    existing unprocessed context as processed. *)
Lemma contexts_transact (env : Env) (c : Call) (s : State) :
  (decryptionContexts (transact env c s) = decryptionContexts s /\
   counterRequest (transact env c s) = counterRequest s) \/
  (exists b h,
      decryptionContexts (transact env c s)
        = <[counterRequest s := mkContext b h false]> (decryptionContexts s) /\
      counterRequest (transact env c s) = counterRequest s + 1) \/
  (exists requestId,
      processed (context_at s requestId) = false /\
      batchId (context_at s requestId) <> 0 /\
      decryptionContexts (transact env c s)
        = <[requestId := with_processed true (context_at s requestId)]> (decryptionContexts s) /\
      counterRequest (transact env c s) = counterRequest s).
Proof.
  destruct c as [o | p | p | b | cd | | | v t | b | requestId cleartexts proof].
  1-8: left; sol_unfold; sol_cases; split; reflexivity.
  - unfold transact, run.
    destruct (requestBatchDecryption env b s) as [[] s' |] eqn:Hreq; [| left; split; reflexivity].
    apply requestBatchDecryption_Ok in Hreq. destruct Hreq as (Hc & Hn & _).
    right; left. exists b, (batch_digest s b). split; assumption.
  - unfold transact, run. rewrite myCallback_cases. simpl.
    destruct (processed (context_at s requestId)) eqn:Hp; [left; split; reflexivity |].
    destruct ((batchId (context_at s requestId) =? 0)
              || (currentBatchId s <? batchId (context_at s requestId))) eqn:Hr;
      [left; split; reflexivity |].
    destruct (negb (batch_digest s (batchId (context_at s requestId))
                    =? stateHash (context_at s requestId))); [left; split; reflexivity |].
    destruct (negb (FHE_checkSignatures requestId cleartexts proof));
      [left; split; reflexivity |].
    destruct (abi_decode_uint32_pair cleartexts) as [[t m] |]; [| left; split; reflexivity].
    right; right. exists requestId.
    apply orb_false_iff in Hr. destruct Hr as [Hz _]. apply N.eqb_neq in Hz.
    repeat split; try assumption; reflexivity.
Qed.

(** The batch id and the digest of a context already handed out are
    never rewritten. *)
Lemma context_kept_transact (env : Env) (c : Call) (s : State) (requestId : uint256) :
  requestId < counterRequest s ->
  requestId < counterRequest (transact env c s) /\
  batchId (context_at (transact env c s) requestId) = batchId (context_at s requestId) /\
  stateHash (context_at (transact env c s) requestId) = stateHash (context_at s requestId).
Proof.
  intros Hlt.
  destruct (contexts_transact env c s)
    as [[Hc Hn] | [(b & h & Hc & Hn) | (r & _ & _ & Hc & Hn)]];
    unfold context_at, mapping_get; rewrite Hc, Hn.
  - repeat split; (reflexivity || exact Hlt).
  - rewrite lookup_insert_ne by lia. repeat split; (reflexivity || lia).
  - split; [exact Hlt |].
    destruct (decide (r = requestId)) as [-> | Hne].
    + rewrite lookup_insert_eq. split; reflexivity.
    + rewrite lookup_insert_ne by exact Hne. split; reflexivity.
Qed.

Lemma context_kept_transact_all (txs : list (Env * Call)) (s : State) (requestId : uint256) :
  requestId < counterRequest s ->
  batchId (context_at (transact_all txs s) requestId) = batchId (context_at s requestId) /\
  stateHash (context_at (transact_all txs s) requestId) = stateHash (context_at s requestId).
Proof.
  revert s. induction txs as [| [env c] txs IH]; intros s Hlt.
  - split; reflexivity.
  - change (transact_all ((env, c) :: txs) s) with (transact_all txs (transact env c s)).
    destruct (context_kept_transact env c s requestId Hlt) as (Hlt' & Hb & Hh).
    destruct (IH _ Hlt') as [Hb' Hh']. rewrite Hb', Hh'. split; assumption.
Qed.

(** C3.  For a callback whose request id has an unprocessed context with
    a batch id in range, the callback hashes the batch's current handles
    with the contract's address and reverts with [StateMismatch] exactly
    when that digest is not the stored one.  If the context is the one a
    request stored and the batch's two accumulators are what they were at
    the request, the callback does not revert with [StateMismatch]; the
    same holds when the callback arrives after any transactions that
    followed the request, as these never rewrite the stored digest. *)
Theorem myCallback_state_check (requestId : uint256) (cleartexts proof : bytes)
    (s : State) (ctx : DecryptionContext) :
  decryptionContexts s !! requestId = Some ctx ->
  processed ctx = false ->
  1 <= batchId ctx <= currentBatchId s ->
  (myCallback requestId cleartexts proof s = Revert StateMismatch <->
   keccak256 (abi_encode [handle (encryptedTotalVibration (batch_at s (batchId ctx)));
                          handle (encryptedMaxTemperature (batch_at s (batchId ctx)))] this)
   <> stateHash ctx) /\
  (forall env0 s0 s1,
      requestBatchDecryption env0 (batchId ctx) s0 = Ok tt s1 ->
      requestId = counterRequest s0 ->
      decryptionContexts s1 !! requestId = Some ctx ->
      encryptedTotalVibration (batch_at s (batchId ctx))
        = encryptedTotalVibration (batch_at s0 (batchId ctx)) ->
      encryptedMaxTemperature (batch_at s (batchId ctx))
        = encryptedMaxTemperature (batch_at s0 (batchId ctx)) ->
      myCallback requestId cleartexts proof s <> Revert StateMismatch) /\
  (forall env0 s0 s1 txs,
      requestBatchDecryption env0 (batchId ctx) s0 = Ok tt s1 ->
      requestId = counterRequest s0 ->
      s = transact_all txs s1 ->
      encryptedTotalVibration (batch_at s (batchId ctx))
        = encryptedTotalVibration (batch_at s0 (batchId ctx)) ->
      encryptedMaxTemperature (batch_at s (batchId ctx))
        = encryptedMaxTemperature (batch_at s0 (batchId ctx)) ->
      myCallback requestId cleartexts proof s <> Revert StateMismatch).
Proof.
  intros Hctx Hproc [Hlo Hhi].
  assert (Hrange : (batchId ctx =? 0) || (currentBatchId s <? batchId ctx) = false).
  { apply orb_false_iff. split; [apply N.eqb_neq; lia | apply N.ltb_ge; exact Hhi]. }
  assert (Hiff : myCallback requestId cleartexts proof s = Revert StateMismatch <->
                 batch_digest s (batchId ctx) <> stateHash ctx).
  { rewrite myCallback_cases, (context_at_Some _ _ _ Hctx). simpl.
    rewrite Hproc, Hrange.
    destruct (N.eqb_spec (batch_digest s (batchId ctx)) (stateHash ctx)) as [Heq | Hne]; simpl.
    - split; [| intros Hne; contradiction].
      destruct (FHE_checkSignatures requestId cleartexts proof); simpl; [| discriminate].
      destruct (abi_decode_uint32_pair cleartexts) as [[? ?] |]; discriminate.
    - split; [intros _; exact Hne | reflexivity]. }
  split; [exact Hiff |]. split.
  - intros env0 s0 s1 Hreq -> Hstored Htot Hmax Hmis.
    apply Hiff in Hmis. apply Hmis.
    apply requestBatchDecryption_Ok in Hreq. destruct Hreq as [Hc _].
    rewrite Hc, lookup_insert_eq in Hstored. injection Hstored as <-. simpl.
    unfold batch_digest. simpl in Htot, Hmax. rewrite Htot, Hmax. reflexivity.
  - intros env0 s0 s1 txs Hreq -> -> Htot Hmax Hmis.
    apply Hiff in Hmis. apply Hmis.
    apply requestBatchDecryption_Ok in Hreq. destruct Hreq as (Hc & Hn & _).
    destruct (context_kept_transact_all txs s1 (counterRequest s0)) as [_ Hh]; [lia |].
    rewrite (context_at_Some _ _ _ Hctx) in Hh. rewrite Hh.
    unfold context_at, mapping_get. rewrite Hc, lookup_insert_eq. simpl.
    unfold batch_digest. rewrite Htot, Hmax. reflexivity.
Qed.

End Callback.

(** C5 as stated fails: on the fresh deployment no context exists under
    request id 7, and the callback reverts with [InvalidBatch], not with
    [ReplayAttempt]. *)
Lemma myCallback_unknown_request_not_replay :
  decryptionContexts Mock.deployed !! 7 = None /\
  myCallback 7 (Mock.pair_bytes Byte.x08 Byte.x14) [Byte.x01] Mock.deployed
    = Revert InvalidBatch /\
  myCallback 7 (Mock.pair_bytes Byte.x08 Byte.x14) [Byte.x01] Mock.deployed
    <> Revert ReplayAttempt.
Proof.
  split; [reflexivity |]. split; [reflexivity |].
  vm_compute. intros H; discriminate H.
Qed.

Lemma myCallback_unknown_request_witness :
  decryptionContexts Mock.requested !! 7 = None /\
  myCallback 7 [] [] Mock.requested = Revert InvalidBatch.
Proof.
  split; [reflexivity |].
  apply (myCallback_unknown_request 7 [] [] Mock.requested). reflexivity.
Defined.

(** The callback for request 0 of the reference run: the batch is as it
    was when the request was made. *)
Lemma myCallback_state_check_witness :
  myCallback 0 (Mock.pair_bytes Byte.x08 Byte.x14) [Byte.x01] Mock.requested
    <> Revert StateMismatch.
Proof.
  destruct (myCallback_state_check 0 (Mock.pair_bytes Byte.x08 Byte.x14) [Byte.x01]
              Mock.requested (context_at Mock.requested 0)) as (_ & Hsame & _).
  - reflexivity.
  - reflexivity.
  - vm_compute. split; intros H; discriminate H.
  - apply (Hsame (Mock.at_time Mock.alice 5000) Mock.closed Mock.requested);
      vm_compute; reflexivity.
Defined.

(** ** One-shot completion *)

Section Replay.
Context {engine : FHEEngine}.

Lemma fresh_ids_constructor (env : Env) : fresh_ids (constructor env).
Proof. intros requestId _. reflexivity. Qed.

Lemma fresh_ids_transact (env : Env) (c : Call) (s : State) :
  fresh_ids s -> fresh_ids (transact env c s).
Proof.
  intros Hf requestId Hge.
  destruct (contexts_transact env c s)
    as [[Hc Hn] | [(b & h & Hc & Hn) | (r & _ & Hb & Hc & Hn)]];
    rewrite Hc; rewrite Hn in Hge.
  - apply Hf, Hge.
  - rewrite lookup_insert_ne by lia. apply Hf. lia.
  - destruct (decide (r = requestId)) as [-> | Hne].
    + exfalso. apply Hb. rewrite (context_at_None _ _ (Hf _ Hge)). reflexivity.
    + rewrite lookup_insert_ne by exact Hne. apply Hf, Hge.
Qed.

Lemma fresh_ids_reachable (s : State) : reachable s -> fresh_ids s.
Proof.
  induction 1 as [env | env c s _ IH].
  - apply fresh_ids_constructor.
  - apply fresh_ids_transact, IH.
Qed.

(** Once set, the flag of a context survives every transaction. *)
Lemma processed_transact (env : Env) (c : Call) (s : State) (requestId : uint256) :
  fresh_ids s ->
  processed (context_at s requestId) = true ->
  processed (context_at (transact env c s) requestId) = true.
Proof.
  intros Hf Hp.
  destruct (contexts_transact env c s)
    as [[Hc _] | [(b & h & Hc & _) | (r & Hr & _ & Hc & _)]];
    unfold context_at in *; rewrite Hc.
  - exact Hp.
  - destruct (decide (counterRequest s = requestId)) as [<- | Hne].
    + unfold mapping_get in Hp. rewrite (Hf (counterRequest s)) in Hp by lia.
      discriminate Hp.
    + unfold mapping_get. rewrite lookup_insert_ne by exact Hne. exact Hp.
  - destruct (decide (r = requestId)) as [-> | Hne].
    + unfold mapping_get at 1. rewrite lookup_insert_eq. reflexivity.
    + unfold mapping_get at 1. rewrite lookup_insert_ne by exact Hne. exact Hp.
Qed.

Lemma reachable_transact_all (txs : list (Env * Call)) (s : State) :
  reachable s -> reachable (transact_all txs s).
Proof.
  revert s. induction txs as [| [env c] txs IH]; intros s Hs; simpl.
  - exact Hs.
  - apply IH. apply reachable_call, Hs.
Qed.

Lemma processed_transact_all (txs : list (Env * Call)) (s : State) (requestId : uint256) :
  reachable s ->
  processed (context_at s requestId) = true ->
  processed (context_at (transact_all txs s) requestId) = true.
Proof.
  revert s. induction txs as [| [env c] txs IH]; intros s Hs Hp; simpl.
  - exact Hp.
  - apply IH; [apply reachable_call, Hs |].
    apply processed_transact; [apply fresh_ids_reachable, Hs | exact Hp].
Qed.

Lemma myCallback_processed (requestId : uint256) (cleartexts proof : bytes) (s : State) :
  processed (context_at s requestId) = true ->
  myCallback requestId cleartexts proof s = Revert ReplayAttempt.
Proof. intros H. rewrite myCallback_cases. simpl. rewrite H. reflexivity. Qed.

Lemma myCallback_Ok (requestId : uint256) (cleartexts proof : bytes) (s s' : State) :
  myCallback requestId cleartexts proof s = Ok tt s' ->
  processed (context_at s requestId) = false /\
  processed (context_at s' requestId) = true /\
  exists total maxT, s' = completed_state requestId total maxT s.
Proof.
  rewrite myCallback_cases. simpl.
  destruct (processed (context_at s requestId)); [discriminate |].
  destruct (_ || _); [discriminate |].
  destruct (negb (_ =? _)); [discriminate |].
  destruct (negb (FHE_checkSignatures _ _ _)); [discriminate |].
  destruct (abi_decode_uint32_pair cleartexts) as [[t m] |]; [| discriminate].
  intros [= <-]. split; [reflexivity |]. split; [| eexists _, _; reflexivity].
  unfold completed_state, context_at, mapping_get. simpl.
  rewrite lookup_insert_eq. reflexivity.
Qed.

(** C4.  In a reachable state, once a callback for a request id has
    succeeded (which found the context unprocessed and marked it
    processed), then after any further transactions the context is still
    processed, and every callback with that request id reverts with
    [ReplayAttempt], its transaction leaving the state, log included, as
    it was. *)
Theorem myCallback_at_most_once (requestId : uint256) (cleartexts proof : bytes)
    (s s' : State) :
  reachable s ->
  myCallback requestId cleartexts proof s = Ok tt s' ->
  processed (context_at s requestId) = false /\
  processed (context_at s' requestId) = true /\
  forall txs env cleartexts' proof',
    let later := transact_all txs s' in
    processed (context_at later requestId) = true /\
    myCallback requestId cleartexts' proof' later = Revert ReplayAttempt /\
    transact env (MyCallback requestId cleartexts' proof') later = later.
Proof.
  intros Hreach Hok.
  destruct (myCallback_Ok _ _ _ _ _ Hok) as (Hbefore & Hafter & _).
  split; [exact Hbefore |]. split; [exact Hafter |].
  intros txs env c' p' later.
  assert (Hs' : reachable s').
  { replace s' with (transact (mkEnv 0 0) (MyCallback requestId cleartexts proof) s).
    - apply reachable_call, Hreach.
    - unfold transact, run. rewrite Hok. reflexivity. }
  assert (Hlater : processed (context_at later requestId) = true).
  { apply processed_transact_all; assumption. }
  split; [exact Hlater |].
  assert (Hrev := myCallback_processed requestId c' p' later Hlater).
  split; [exact Hrev |].
  unfold transact, run. rewrite Hrev. reflexivity.
Qed.

End Replay.

(** The states of the reference run are reachable. *)
Lemma reference_run_reachable :
  reachable Mock.opened /\ reachable Mock.closed /\
  reachable Mock.requested /\ reachable Mock.completed.
Proof.
  cbv [Mock.completed Mock.requested Mock.closed Mock.opened Mock.deployed
       transact_all fold_left fst snd].
  repeat split; repeat apply reachable_call; apply reachable_deploy.
Qed.

Lemma myCallback_at_most_once_witness :
  processed (context_at Mock.requested 0) = false /\
  processed (context_at Mock.completed 0) = true /\
  myCallback 0 [] [] Mock.completed = Revert ReplayAttempt.
Proof.
  destruct (myCallback_at_most_once 0 (Mock.pair_bytes Byte.x08 Byte.x14) [Byte.x01]
              Mock.requested Mock.completed) as (Hb & Ha & Hl).
  - apply reference_run_reachable.
  - vm_compute. reflexivity.
  - split; [exact Hb |]. split; [exact Ha |].
    exact (proj1 (proj2 (Hl [] (mkEnv 0 0) [] []))).
Defined.

(** ** Failed callbacks *)

Section FailedCallback.
Context {engine : FHEEngine}.

(** A callback whose checks all pass commits. *)
Lemma myCallback_passing (requestId : uint256) (cleartexts proof : bytes) (s : State)
    (total maxT : N) :
  processed (context_at s requestId) = false ->
  1 <= batchId (context_at s requestId) <= currentBatchId s ->
  batch_digest s (batchId (context_at s requestId)) = stateHash (context_at s requestId) ->
  FHE_checkSignatures requestId cleartexts proof = true ->
  abi_decode_uint32_pair cleartexts = Some (total, maxT) ->
  myCallback requestId cleartexts proof s = Ok tt (completed_state requestId total maxT s).
Proof.
  intros Hp [Hlo Hhi] Hd Hsig Hdec. rewrite myCallback_cases. simpl.
  rewrite Hp, Hd, N.eqb_refl, Hsig, Hdec. simpl.
  destruct (N.eqb_spec (batchId (context_at s requestId)) 0); [lia |].
  destruct (N.ltb_spec (currentBatchId s) (batchId (context_at s requestId))); [lia |].
  reflexivity.
Qed.

(** C9, as the code has it.  A callback that reverts leaves the state,
    and so the context of its request id, as it was.  The error is
    [ReplayAttempt] exactly when that context is already processed; after
    any other error the context is still unprocessed.  A callback that
    failed the proof check or the decoding succeeds when retried on the
    same state with an accepted proof and decodable cleartexts, and in any
    later state a callback whose checks all pass marks the context
    processed: no failure is terminal. *)
Theorem myCallback_failure_leaves_context (requestId : uint256) (cleartexts proof : bytes)
    (s : State) (e : Error) :
  myCallback requestId cleartexts proof s = Revert e ->
  (forall env, transact env (MyCallback requestId cleartexts proof) s = s) /\
  (e = ReplayAttempt <-> processed (context_at s requestId) = true) /\
  (e <> ReplayAttempt ->
   forall env,
     context_at (transact env (MyCallback requestId cleartexts proof) s) requestId
       = context_at s requestId /\
     processed (context_at (transact env (MyCallback requestId cleartexts proof) s) requestId)
       = false) /\
  (e = DecryptionFailed \/ e = AbiDecode ->
   forall cleartexts' proof' total maxT,
     FHE_checkSignatures requestId cleartexts' proof' = true ->
     abi_decode_uint32_pair cleartexts' = Some (total, maxT) ->
     exists s', myCallback requestId cleartexts' proof' s = Ok tt s' /\
                processed (context_at s' requestId) = true) /\
  (forall later cleartexts' proof' total maxT,
     processed (context_at later requestId) = false ->
     1 <= batchId (context_at later requestId) <= currentBatchId later ->
     batch_digest later (batchId (context_at later requestId))
       = stateHash (context_at later requestId) ->
     FHE_checkSignatures requestId cleartexts' proof' = true ->
     abi_decode_uint32_pair cleartexts' = Some (total, maxT) ->
     exists s', myCallback requestId cleartexts' proof' later = Ok tt s' /\
                processed (context_at s' requestId) = true).
Proof.
  intros Hrev.
  assert (Hsame : forall env, transact env (MyCallback requestId cleartexts proof) s = s).
  { intros env. unfold transact, run. rewrite Hrev. reflexivity. }
  assert (Hpass : forall later cleartexts' proof' total maxT,
     processed (context_at later requestId) = false ->
     1 <= batchId (context_at later requestId) <= currentBatchId later ->
     batch_digest later (batchId (context_at later requestId))
       = stateHash (context_at later requestId) ->
     FHE_checkSignatures requestId cleartexts' proof' = true ->
     abi_decode_uint32_pair cleartexts' = Some (total, maxT) ->
     exists s', myCallback requestId cleartexts' proof' later = Ok tt s' /\
                processed (context_at s' requestId) = true).
  { intros later c' p' t m Hp Hr Hd Hsig Hdec.
    pose proof (myCallback_passing requestId c' p' later t m Hp Hr Hd Hsig Hdec) as Hok.
    eexists. split; [exact Hok |].
    apply (myCallback_Ok _ _ _ _ _ Hok). }
  rewrite myCallback_cases in Hrev. simpl in Hrev.
  destruct (processed (context_at s requestId)) eqn:Hp.
  { injection Hrev as <-.
    split; [exact Hsame |]. split; [split; reflexivity |].
    split; [intros Hne; contradiction |].
    split; [intros [H | H]; discriminate H | exact Hpass]. }
  split; [exact Hsame |].
  split; [split; [| discriminate] |].
  { intros ->.
    destruct (_ || _); [discriminate |].
    destruct (negb (_ =? _)); [discriminate |].
    destruct (negb (FHE_checkSignatures _ _ _)); [discriminate |].
    destruct (abi_decode_uint32_pair cleartexts) as [[? ?] |]; discriminate. }
  split; [intros _ env; rewrite Hsame; split; [reflexivity | exact Hp] |].
  split; [| exact Hpass].
  intros He c' p' t m Hsig Hdec.
  destruct ((batchId (context_at s requestId) =? 0)
            || (currentBatchId s <? batchId (context_at s requestId))) eqn:Hr.
  { injection Hrev as <-. destruct He as [H | H]; discriminate H. }
  destruct (N.eqb_spec (batch_digest s (batchId (context_at s requestId)))
                       (stateHash (context_at s requestId))) as [Hd | Hd]; simpl in Hrev.
  2: { injection Hrev as <-. destruct He as [H | H]; discriminate H. }
  apply orb_false_iff in Hr. destruct Hr as [Hz Hhi].
  apply N.eqb_neq in Hz. apply N.ltb_ge in Hhi.
  apply (Hpass s c' p' t m); try assumption. lia.
Qed.

End FailedCallback.

(** C9 as stated fails for [ReplayAttempt]: the callback for request 0
    of the completed reference run reverts with it, and the context it
    leaves behind is processed, so no later callback for request 0 gets
    past the replay check. *)
Lemma myCallback_replay_leaves_processed :
  myCallback 0 (Mock.pair_bytes Byte.x08 Byte.x14) [Byte.x01] Mock.completed
    = Revert ReplayAttempt /\
  processed (context_at
    (transact (Mock.at_time Mock.carol 7000)
       (MyCallback 0 (Mock.pair_bytes Byte.x08 Byte.x14) [Byte.x01]) Mock.completed) 0)
    <> false.
Proof.
  split; [vm_compute; reflexivity |].
  vm_compute. intros H; discriminate H.
Qed.

(** The callback for request 0 with an empty proof fails the proof check;
    retried with a proof the engine accepts, it completes. *)
Lemma myCallback_failure_leaves_context_witness :
  myCallback 0 (Mock.pair_bytes Byte.x08 Byte.x14) [] Mock.requested
    = Revert DecryptionFailed /\
  processed (context_at
    (transact (Mock.at_time Mock.carol 6000)
       (MyCallback 0 (Mock.pair_bytes Byte.x08 Byte.x14) []) Mock.requested) 0) = false /\
  exists s', myCallback 0 (Mock.pair_bytes Byte.x08 Byte.x14) [Byte.x01] Mock.requested
             = Ok tt s' /\ processed (context_at s' 0) = true.
Proof.
  assert (Hrev : myCallback 0 (Mock.pair_bytes Byte.x08 Byte.x14) [] Mock.requested
                 = Revert DecryptionFailed) by (vm_compute; reflexivity).
  destruct (myCallback_failure_leaves_context 0 (Mock.pair_bytes Byte.x08 Byte.x14) []
              Mock.requested DecryptionFailed Hrev) as (_ & _ & Hun & Hretry & _).
  split; [exact Hrev |]. split.
  - apply Hun. intros H; discriminate H.
  - apply (Hretry (or_introl eq_refl) (Mock.pair_bytes Byte.x08 Byte.x14) [Byte.x01] 8 20);
      vm_compute; reflexivity.
Defined.

(** ** The batch ledger *)

Section Ledger.
Context {engine : FHEEngine}.

Ltac batch_simpl :=
  unfold update_batch, batch_at, mapping_get; simpl;
  rewrite ?lookup_insert_eq, ?insert_insert_eq; simpl.

Lemma openBatch_Ok (env : Env) (s s' : State) :
  openBatch env s = Ok tt s' ->
  open (batch_at s (currentBatchId s)) = false /\
  currentBatchId s' = currentBatchId s + 1 /\
  batches s' = <[currentBatchId s + 1 :=
                  mkBatch (currentBatchId s + 1) true 0 (FHE_asEuint32 0) (FHE_asEuint32 0)]>
               (batches s) /\
  events s' = events s ++ [BatchOpened (currentBatchId s + 1)].
Proof.
  sol_unfold. sol_cases; intros [= <-].
  match goal with H : checked_add _ 1 = Some _ |- _ =>
    apply checked_add_inv in H; destruct H as [-> _] end.
  simpl. repeat split; try reflexivity.
  batch_simpl. reflexivity.
Qed.

Lemma closeBatch_Ok (env : Env) (s s' : State) :
  closeBatch env s = Ok tt s' ->
  open (batch_at s (currentBatchId s)) = true /\
  currentBatchId s' = currentBatchId s /\
  batches s' = <[currentBatchId s := with_open false (batch_at s (currentBatchId s))]>
               (batches s) /\
  events s' = events s ++ [BatchClosed (currentBatchId s)].
Proof.
  sol_unfold. sol_cases; intros [= <-]. simpl.
  match goal with H : negb _ = false |- _ => apply negb_false_iff in H end.
  repeat split; try reflexivity; assumption.
Qed.

Lemma submitData_Ok (env : Env) (v t : euint32) (s s' : State) :
  submitData env v t s = Ok tt s' ->
  let b := batch_at s (currentBatchId s) in
  open b = true /\
  currentBatchId s' = currentBatchId s /\
  batches s' =
    <[currentBatchId s :=
        mkBatch (id b) (open b) (dataCount b + 1)
                (FHE_add (encryptedTotalVibration b) v)
                (FHE_select (encryptedMaxTemperature b) t
                            (FHE_ge t (encryptedMaxTemperature b)))]> (batches s) /\
  events s' = events s ++ [DataSubmitted (msg_sender env) (currentBatchId s) (dataCount b + 1)].
Proof.
  sol_unfold. sol_cases; intros [= <-]; simpl;
    match goal with H : checked_add (dataCount _) 1 = Some _ |- _ =>
      apply checked_add_inv in H; destruct H as [-> _] end;
    match goal with H : negb (open _) = false |- _ => apply negb_false_iff in H end;
    (split; [assumption |]); (split; [reflexivity |]);
    batch_simpl; split; reflexivity.
Qed.

(** The calls that are not batch operations leave the ledger alone. *)
Lemma batches_other (env : Env) (c : Call) (s : State) :
  match c with OpenBatch | CloseBatch | SubmitData _ _ => False | _ => True end ->
  batches (transact env c s) = batches s /\
  currentBatchId (transact env c s) = currentBatchId s /\
  opened_ids (events (transact env c s)) = opened_ids (events s).
Proof.
  intros Hc. unfold opened_ids.
  destruct c; try contradiction; sol_unfold; sol_cases;
    rewrite ?flat_map_app, ?app_nil_r; simpl; rewrite ?app_nil_r; repeat split; reflexivity.
Qed.

Lemma ids_up_to_succ (n : uint256) : ids_up_to (n + 1) = ids_up_to n ++ [n + 1].
Proof.
  unfold ids_up_to. replace (N.to_nat (n + 1)) with (S (N.to_nat n)) by lia.
  rewrite seq_S, map_app. simpl. do 2 f_equal. lia.
Qed.

Lemma batch_inv_constructor (env : Env) : batch_inv (constructor env).
Proof.
  split; simpl.
  - intros k. rewrite lookup_empty. split; [intros [? H]; discriminate H | lia].
  - reflexivity.
  - reflexivity.
  - intros k b H. rewrite lookup_empty in H. discriminate H.
  - intros k b H. rewrite lookup_empty in H. discriminate H.
Qed.

Lemma batch_at_Some (s : State) (k : uint256) (b : Batch) :
  batches s !! k = Some b -> batch_at s k = b.
Proof. intros H. unfold batch_at, mapping_get. rewrite H. reflexivity. Qed.

Lemma batch_at_open (s : State) (k : uint256) :
  open (batch_at s k) = true -> batches s !! k = Some (batch_at s k).
Proof.
  unfold batch_at, mapping_get. destruct (batches s !! k); simpl; [reflexivity | discriminate].
Qed.

Lemma batch_inv_openBatch (env : Env) (s s' : State) :
  batch_inv s -> openBatch env s = Ok tt s' -> batch_inv s'.
Proof.
  intros [Ha Hn Ho Hi Hop] Hok.
  apply openBatch_Ok in Hok. destruct Hok as (Hclosed & Hcur & Hb & He).
  assert (Hnew : batches s !! (currentBatchId s + 1) = None).
  { destruct (batches s !! (currentBatchId s + 1)) eqn:E; [| reflexivity].
    assert (His : is_Some (batches s !! (currentBatchId s + 1))) by (rewrite E; eauto).
    apply Ha in His. lia. }
  split; rewrite ?Hcur, ?Hb, ?He.
  - intros k. rewrite lookup_insert_is_Some, Ha. lia.
  - rewrite map_size_insert_None by exact Hnew. rewrite Hn. lia.
  - unfold opened_ids in *. rewrite flat_map_app, Ho, ids_up_to_succ. reflexivity.
  - intros k b. rewrite lookup_insert_Some. intros [[<- <-] | [_ H]]; [reflexivity |].
    apply (Hi _ _ H).
  - intros k b. rewrite lookup_insert_Some. intros [[<- <-] | [Hne H]] Hopen; [reflexivity |].
    pose proof (Hop _ _ H Hopen) as ->.
    rewrite (batch_at_Some _ _ _ H) in Hclosed. congruence.
Qed.

Lemma batch_inv_update_current (s s' : State) (b' : Batch) :
  batch_inv s ->
  open (batch_at s (currentBatchId s)) = true ->
  currentBatchId s' = currentBatchId s ->
  batches s' = <[currentBatchId s := b']> (batches s) ->
  opened_ids (events s') = opened_ids (events s) ->
  id b' = id (batch_at s (currentBatchId s)) ->
  batch_inv s'.
Proof.
  intros [Ha Hn Ho Hi Hop] Hopen Hcur Hb He Hid.
  apply batch_at_open in Hopen.
  assert (Hin : 1 <= currentBatchId s <= currentBatchId s).
  { apply Ha. rewrite Hopen. eauto. }
  split; rewrite ?Hcur, ?Hb, ?He.
  - intros k. rewrite lookup_insert_is_Some, Ha. lia.
  - erewrite map_size_insert_Some by (rewrite Hopen; eauto). exact Hn.
  - exact Ho.
  - intros k b. rewrite lookup_insert_Some. intros [[<- <-] | [_ H]].
    + rewrite Hid. apply (Hi _ _ Hopen).
    + apply (Hi _ _ H).
  - intros k b. rewrite lookup_insert_Some. intros [[<- <-] | [_ H]] Hopen'; [reflexivity |].
    apply (Hop _ _ H Hopen').
Qed.

Lemma opened_ids_snoc (log : list Event) (e : Event) :
  match e with BatchOpened _ => False | _ => True end ->
  opened_ids (log ++ [e]) = opened_ids log.
Proof.
  intros H. unfold opened_ids. rewrite flat_map_app. simpl.
  destruct e; try contradiction; simpl; apply app_nil_r.
Qed.

(** Every transaction preserves the ledger's invariant. *)
Lemma batch_inv_transact (env : Env) (c : Call) (s : State) :
  batch_inv s -> batch_inv (transact env c s).
Proof.
  intros Hinv.
  destruct c as [o | p | p | b | cd | | | v t | b | requestId cleartexts proof].
  1-5, 9-10:
    match goal with |- batch_inv (transact _ ?c _) =>
      destruct (batches_other env c s I) as (Hb & Hcur & He) end;
    destruct Hinv as [Ha Hn Ho Hi Hop]; split; rewrite ?Hb, ?Hcur, ?He; assumption.
  - unfold transact, run. destruct (openBatch env s) as [[] s' |] eqn:Hok; [| exact Hinv].
    apply (batch_inv_openBatch env s s' Hinv Hok).
  - unfold transact, run. destruct (closeBatch env s) as [[] s' |] eqn:Hok; [| exact Hinv].
    apply closeBatch_Ok in Hok. destruct Hok as (Hopen & Hcur & Hb & He).
    apply (batch_inv_update_current s s' _ Hinv Hopen Hcur Hb); [| reflexivity].
    rewrite He. apply opened_ids_snoc. exact I.
  - unfold transact, run. destruct (submitData env v t s) as [[] s' |] eqn:Hok; [| exact Hinv].
    apply submitData_Ok in Hok. destruct Hok as (Hopen & Hcur & Hb & He).
    apply (batch_inv_update_current s s' _ Hinv Hopen Hcur Hb); [| reflexivity].
    rewrite He. apply opened_ids_snoc. exact I.
Qed.

Lemma batch_inv_reachable (s : State) : reachable s -> batch_inv s.
Proof.
  induction 1 as [env | env c s _ IH].
  - apply batch_inv_constructor.
  - apply batch_inv_transact, IH.
Qed.

Lemma batch_inv_one_open (s : State) (i j : uint256) :
  batch_inv s ->
  open (batch_at s i) = true -> open (batch_at s j) = true -> i = j.
Proof.
  intros Hinv Hi Hj.
  apply batch_at_open in Hi as Hi'. apply batch_at_open in Hj as Hj'.
  rewrite (inv_open s Hinv _ _ Hi' Hi), (inv_open s Hinv _ _ Hj' Hj). reflexivity.
Qed.

(** C8.  In every reachable state the batches allocated are exactly those
    numbered 1 to [currentBatchId], [currentBatchId] is their number, the
    log shows them opened as 1, 2, 3, ... in that order, each batch holds
    its own number, and at most one batch is open.  [openBatch],
    [closeBatch] and [submitData], called by anyone at any time, lead
    again to such a state, and a successful [openBatch] allocates the
    next number. *)
Theorem batch_ledger_invariant (s : State) :
  reachable s ->
  batch_inv s /\
  (forall i j, open (batch_at s i) = true -> open (batch_at s j) = true -> i = j) /\
  (forall env, batch_inv (transact env OpenBatch s)) /\
  (forall env, batch_inv (transact env CloseBatch s)) /\
  (forall env v t, batch_inv (transact env (SubmitData v t) s)) /\
  (forall env s', openBatch env s = Ok tt s' ->
                  currentBatchId s' = currentBatchId s + 1 /\
                  id (batch_at s' (currentBatchId s')) = currentBatchId s' /\
                  open (batch_at s' (currentBatchId s')) = true).
Proof.
  intros Hreach. pose proof (batch_inv_reachable s Hreach) as Hinv.
  split; [exact Hinv |].
  split; [intros i j; apply batch_inv_one_open; exact Hinv |].
  split; [intros env; apply batch_inv_transact, Hinv |].
  split; [intros env; apply batch_inv_transact, Hinv |].
  split; [intros env v t; apply batch_inv_transact, Hinv |].
  intros env s' Hok. apply openBatch_Ok in Hok. destruct Hok as (_ & Hcur & Hb & _).
  split; [exact Hcur |].
  unfold batch_at, mapping_get. rewrite Hb, Hcur, lookup_insert_eq. split; reflexivity.
Qed.

End Ledger.

Lemma batch_ledger_invariant_witness :
  batch_inv Mock.closed /\
  batch_inv (transact (Mock.at_time Mock.alice 4500) OpenBatch Mock.closed).
Proof.
  destruct (batch_ledger_invariant Mock.closed) as (Hinv & _ & Hopen & _).
  - apply reference_run_reachable.
  - split; [exact Hinv | apply Hopen].
Defined.

(** ** The accumulators *)

Section Accumulators.
Context {engine : FHEEngine}.

(** What one transaction does to the accumulators of an allocated batch
    [k]: an accepted submission to [k] folds its two readings in, and
    nothing else touches them.  The current batch id never decreases. *)
Lemma accumulators_transact (env : Env) (c : Call) (s : State) (k : uint256) :
  k <= currentBatchId s ->
  k <= currentBatchId (transact env c s) /\
  match accepted env c s k with
  | [] =>
      encryptedTotalVibration (batch_at (transact env c s) k)
        = encryptedTotalVibration (batch_at s k) /\
      encryptedMaxTemperature (batch_at (transact env c s) k)
        = encryptedMaxTemperature (batch_at s k)
  | _ =>
      exists v t,
        accepted env c s k = [(clear v, clear t)] /\
        encryptedTotalVibration (batch_at (transact env c s) k)
          = FHE_add (encryptedTotalVibration (batch_at s k)) v /\
        encryptedMaxTemperature (batch_at (transact env c s) k)
          = FHE_select (encryptedMaxTemperature (batch_at s k)) t
                       (FHE_ge t (encryptedMaxTemperature (batch_at s k)))
  end.
Proof.
  intros Hk. unfold accepted.
  destruct c as [o | p | p | b | cd | | | v t | b | requestId cleartexts proof].
  1-5, 9-10:
    match goal with |- context [transact _ ?c _] =>
      destruct (batches_other env c s I) as (Hb & Hcur & _) end;
    unfold batch_at; rewrite Hb, Hcur; repeat split; (reflexivity || exact Hk).
  - unfold transact. simpl run.
    destruct (openBatch env s) as [[] s' |] eqn:Hok; [| repeat split; (reflexivity || exact Hk)].
    apply openBatch_Ok in Hok. destruct Hok as (_ & Hcur & Hb & _).
    unfold batch_at, mapping_get. rewrite Hcur, Hb, lookup_insert_ne by lia.
    repeat split; (reflexivity || lia).
  - unfold transact. simpl run.
    destruct (closeBatch env s) as [[] s' |] eqn:Hok; [| repeat split; (reflexivity || exact Hk)].
    apply closeBatch_Ok in Hok. destruct Hok as (_ & Hcur & Hb & _).
    unfold batch_at, mapping_get. rewrite Hcur, Hb.
    split; [exact Hk |].
    destruct (decide (currentBatchId s = k)) as [<- | Hne].
    + rewrite lookup_insert_eq. split; reflexivity.
    + rewrite lookup_insert_ne by exact Hne. split; reflexivity.
  - unfold transact. simpl run.
    destruct (submitData env v t s) as [[] s' |] eqn:Hok; [| repeat split; (reflexivity || exact Hk)].
    apply submitData_Ok in Hok. destruct Hok as (_ & Hcur & Hb & _).
    rewrite Hcur. split; [exact Hk |].
    destruct (N.eqb_spec (currentBatchId s) k) as [<- | Hne].
    + exists v, t. split; [reflexivity |].
      unfold batch_at at 1 3, mapping_get. rewrite Hb, lookup_insert_eq. split; reflexivity.
    + unfold batch_at at 1 3, mapping_get. rewrite Hb, lookup_insert_ne by exact Hne.
      split; reflexivity.
Qed.

Lemma running_sum_wrap (vs : list Z) (start : Z) :
  wrap32 (running_sum start vs) = wrap32 (start + sumZ vs).
Proof.
  revert start. induction vs as [| v vs IH]; intros start; simpl.
  - rewrite Z.add_0_r. reflexivity.
  - unfold running_sum in *. simpl. rewrite IH. unfold wrap32.
    rewrite Zplus_mod_idemp_l. f_equal. lia.
Qed.

Lemma wrap32_idem (z : Z) : wrap32 (wrap32 z) = wrap32 z.
Proof. unfold wrap32. apply Zmod_mod. Qed.

Lemma running_sum_wrapped (vs : list Z) (start : Z) :
  wrap32 start = start -> wrap32 (running_sum start vs) = running_sum start vs.
Proof.
  revert start. induction vs as [| v vs IH]; intros start Hs; simpl.
  - exact Hs.
  - apply IH, wrap32_idem.
Qed.

(** Along any run, the sum accumulator of batch [k] is the running sum of
    the vibrations accepted into [k]. *)
Lemma total_transact_all (txs : list (Env * Call)) (s : State) (k : uint256) :
  k <= currentBatchId s ->
  clear (encryptedTotalVibration (batch_at (transact_all txs s) k))
  = running_sum (clear (encryptedTotalVibration (batch_at s k)))
                (vibrations (submitted txs s k)).
Proof.
  revert s. induction txs as [| [env c] txs IH]; intros s Hk.
  - reflexivity.
  - change (transact_all ((env, c) :: txs) s) with (transact_all txs (transact env c s)).
    change (submitted ((env, c) :: txs) s k)
      with (accepted env c s k ++ submitted txs (transact env c s) k).
    destruct (accumulators_transact env c s k Hk) as [Hk' Hacc].
    rewrite (IH _ Hk'). unfold vibrations, running_sum. rewrite map_app, fold_left_app.
    f_equal.
    destruct (accepted env c s k) as [| r rs] eqn:Ha.
    + destruct Hacc as [-> _]. reflexivity.
    + destruct Hacc as (v & t & [= -> ->] & -> & _). reflexivity.
Qed.

Lemma sumZ_Permutation (l l' : list Z) : Permutation l l' -> sumZ l = sumZ l'.
Proof.
  induction 1 as [| x l l' _ IH | x y l | l l' l'' _ IH1 _ IH2]; simpl; lia.
Qed.

(** Along any run of transactions: for the batch a successful
    [openBatch] creates and any run of
    transactions after it, the cleartext of the batch's sum accumulator
    is the sum, modulo 2^32, of the vibration readings accepted into that
    batch; two runs that submit the same readings in different orders end
    with the same sum. *)
Theorem total_vibration_is_sum (env0 : Env) (s0 s : State) (txs : list (Env * Call)) :
  openBatch env0 s0 = Ok tt s ->
  clear (encryptedTotalVibration (batch_at (transact_all txs s) (currentBatchId s)))
  = wrap32 (sumZ (vibrations (submitted txs s (currentBatchId s)))) /\
  (forall txs',
      Permutation (vibrations (submitted txs s (currentBatchId s)))
                  (vibrations (submitted txs' s (currentBatchId s))) ->
      clear (encryptedTotalVibration (batch_at (transact_all txs' s) (currentBatchId s)))
      = clear (encryptedTotalVibration (batch_at (transact_all txs s) (currentBatchId s)))).
Proof.
  intros Hopen. apply openBatch_Ok in Hopen. destruct Hopen as (_ & Hcur & Hb & _).
  assert (Hzero : clear (encryptedTotalVibration (batch_at s (currentBatchId s))) = 0%Z).
  { unfold batch_at, mapping_get. rewrite Hb, Hcur, lookup_insert_eq. reflexivity. }
  assert (Hsum : forall l,
    clear (encryptedTotalVibration (batch_at (transact_all l s) (currentBatchId s)))
    = wrap32 (sumZ (vibrations (submitted l s (currentBatchId s))))).
  { intros l. rewrite total_transact_all by lia. rewrite Hzero.
    rewrite <- running_sum_wrapped by reflexivity.
    rewrite running_sum_wrap. reflexivity. }
  split; [apply Hsum |].
  intros txs' Hperm. rewrite !Hsum. f_equal. symmetry. apply sumZ_Permutation, Hperm.
Qed.

(** What the code computes for the max accumulator after two accepted
    submissions into a fresh batch. *)
Lemma max_after_two (env0 env1 env2 : Env) (s0 s s1 s2 : State) (v1 t1 v2 t2 : euint32) :
  openBatch env0 s0 = Ok tt s ->
  submitData env1 v1 t1 s = Ok tt s1 ->
  submitData env2 v2 t2 s1 = Ok tt s2 ->
  let m1 := if control_true 0 then clear t1 else (if (0 <=? clear t1)%Z then 1 else 0)%Z in
  clear (encryptedMaxTemperature (batch_at s2 (currentBatchId s)))
  = if control_true m1 then clear t2 else (if (m1 <=? clear t2)%Z then 1 else 0)%Z.
Proof.
  intros Hopen H1 H2.
  apply openBatch_Ok in Hopen. destruct Hopen as (_ & Hcur & Hb & _).
  apply submitData_Ok in H1. destruct H1 as (_ & Hcur1 & Hb1 & _).
  apply submitData_Ok in H2. destruct H2 as (_ & Hcur2 & Hb2 & _).
  unfold batch_at, mapping_get in *.
  rewrite Hcur1 in Hb2. rewrite Hb2, lookup_insert_eq. simpl.
  rewrite Hb1, lookup_insert_eq. simpl.
  rewrite Hb, Hcur, lookup_insert_eq. simpl. reflexivity.
Qed.

(** Whatever the engine takes a select control to mean, a fresh batch
    that receives the temperatures 20 and then 5 does not end up with 20
    in its max accumulator. *)
Lemma max_accumulator_loses_maximum (env0 env1 env2 : Env) (s0 s s1 s2 : State)
    (v1 t1 v2 t2 : euint32) :
  openBatch env0 s0 = Ok tt s ->
  submitData env1 v1 t1 s = Ok tt s1 ->
  submitData env2 v2 t2 s1 = Ok tt s2 ->
  clear t1 = 20%Z -> clear t2 = 5%Z ->
  clear (encryptedMaxTemperature (batch_at s2 (currentBatchId s))) <> maxZ [20; 5]%Z.
Proof.
  intros Hopen H1 H2 Ht1 Ht2.
  rewrite (max_after_two _ _ _ _ _ _ _ _ _ _ _ Hopen H1 H2), Ht1, Ht2.
  change (maxZ [20; 5]%Z) with 20%Z.
  destruct (control_true 0); simpl;
    repeat match goal with |- context [control_true ?z] => destruct (control_true z) end;
    simpl; discriminate.
Qed.

End Accumulators.

Lemma total_vibration_is_sum_witness :
  clear (encryptedTotalVibration
           (batch_at (transact_all Mock.falling Mock.opened) (currentBatchId Mock.opened)))
  = wrap32 (sumZ (vibrations (submitted Mock.falling Mock.opened (currentBatchId Mock.opened)))).
Proof.
  refine (proj1 (@total_vibration_is_sum Mock.engine (Mock.at_time Mock.alice 1002)
                   Mock.registered Mock.opened Mock.falling _)).
  vm_compute. reflexivity.
Defined.

(** The run [Mock.falling] is such a pair of accepted submissions. *)
Lemma max_accumulator_loses_maximum_reference :
  clear (encryptedMaxTemperature
           (batch_at (transact_all Mock.falling Mock.opened) (currentBatchId Mock.opened)))
  <> maxZ [20; 5]%Z.
Proof.
  refine (@max_accumulator_loses_maximum Mock.engine
            (Mock.at_time Mock.alice 1002) (Mock.at_time Mock.bob 2000)
            (Mock.at_time Mock.bob 3000)
            Mock.registered Mock.opened
            (transact (Mock.at_time Mock.bob 2000)
                      (SubmitData (Mock.enc 101 5) (Mock.enc 102 20)) Mock.opened)
            (transact_all Mock.falling Mock.opened)
            (Mock.enc 101 5) (Mock.enc 102 20) (Mock.enc 103 3) (Mock.enc 104 5)
            _ _ _ _ _); vm_compute; reflexivity.
Qed.

(** C1 fails on the code: in the reference deployment, batch 1 receives
    the temperatures 20 and then 5, both accepted, and its max accumulator
    then holds 5, while the maximum of the submitted values is 20. *)
Theorem max_accumulator_reference_run :
  temperatures (submitted Mock.falling Mock.opened 1) = [20; 5]%Z /\
  maxZ (temperatures (submitted Mock.falling Mock.opened 1)) = 20%Z /\
  clear (encryptedMaxTemperature (batch_at (transact_all Mock.falling Mock.opened) 1)) = 5%Z.
Proof.
  repeat split; vm_compute; reflexivity.
Qed.

(** * Further properties of the contract *)

(** ** The external functions as decision lists *)

Section DecisionLists.
Context {engine : FHEEngine}.

Ltac state_eq :=
  unfold opened_state, closed_state, submitted_state, submitted_batch, requested_state,
    batch_digest, update_batch, batch_at, mapping_get; simpl;
  rewrite ?lookup_insert_eq, ?insert_insert_eq; simpl;
  rewrite ?lookup_insert_eq, ?insert_insert_eq; reflexivity.

Lemma openBatch_cases (env : Env) (s : State) :
  openBatch env s =
  if negb (msg_sender env =? owner s) then Revert NotOwner
  else if paused s then Revert PausedState
  else if open (batch_at s (currentBatchId s)) then Revert BatchOpen
  else if currentBatchId s + 1 <=? MAX_UINT256 then Ok tt (opened_state s)
  else Revert Panic.
Proof.
  sol_unfold. unfold checked_add. sol_cases; try reflexivity. f_equal. state_eq.
Qed.

Lemma closeBatch_cases (env : Env) (s : State) :
  closeBatch env s =
  if negb (msg_sender env =? owner s) then Revert NotOwner
  else if paused s then Revert PausedState
  else if open (batch_at s (currentBatchId s)) then Ok tt (closed_state s)
  else Revert BatchNotOpen.
Proof.
  sol_unfold. sol_cases; try reflexivity; try discriminate.
Qed.

Lemma submitData_cases (env : Env) (v t : euint32) (s : State) :
  submitData env v t s =
  if negb (mapping_get false (isProvider s) (msg_sender env)) then Revert NotProvider
  else if paused s then Revert PausedState
  else if negb (mapping_get 0 (lastSubmissionTime s) (msg_sender env) + cooldownSeconds s
                <=? MAX_UINT256) then Revert Panic
  else if block_timestamp env
          <? mapping_get 0 (lastSubmissionTime s) (msg_sender env) + cooldownSeconds s
       then Revert CooldownActive
  else if negb (open (batch_at s (currentBatchId s))) then Revert BatchNotOpen
  else if dataCount (batch_at s (currentBatchId s)) + 1 <=? MAX_UINT256
       then Ok tt (submitted_state env v t s)
  else Revert Panic.
Proof.
  sol_unfold. unfold checked_add. sol_cases; try reflexivity; try discriminate;
    f_equal; state_eq.
Qed.

Lemma requestBatchDecryption_cases (env : Env) (b : uint256) (s : State) :
  requestBatchDecryption env b s =
  if negb (msg_sender env =? owner s) then Revert NotOwner
  else if paused s then Revert PausedState
  else if negb (mapping_get 0 (lastDecryptionRequestTime s) (msg_sender env) + cooldownSeconds s
                <=? MAX_UINT256) then Revert Panic
  else if block_timestamp env
          <? mapping_get 0 (lastDecryptionRequestTime s) (msg_sender env) + cooldownSeconds s
       then Revert CooldownActive
  else if (b =? 0) || (currentBatchId s <? b) || open (batch_at s b) then Revert InvalidBatch
  else if counterRequest s + 1 <=? MAX_UINT256 then Ok tt (requested_state env b s)
  else Revert Panic.
Proof.
  sol_unfold. unfold checked_add. sol_cases; try reflexivity; try discriminate.
Qed.

End DecisionLists.

(** ** The log *)

Section Log.
Context {engine : FHEEngine}.

(** X1.  A transaction that reverts logs nothing; one that goes through
    appends exactly one event, of the kind that belongs to the call and
    carrying the call's argument. *)
Theorem transact_logs_one_event (env : Env) (c : Call) (s : State) :
  match outcome env c s with
  | Some _ => events (transact env c s) = events s
  | None => exists e, events (transact env c s) = events s ++ [e] /\ announces c e
  end.
Proof.
  destruct c as [o | p | p | b | cd | | | v t | b | requestId cleartexts proof].
  - sol_unfold. sol_cases; [reflexivity |]. eexists. split; reflexivity.
  - sol_unfold. sol_cases; [reflexivity |]. eexists. split; reflexivity.
  - sol_unfold. sol_cases; [reflexivity |]. eexists. split; reflexivity.
  - sol_unfold. destruct b; sol_cases; try reflexivity; eexists; (split; [reflexivity | exact I]).
  - sol_unfold. sol_cases; [reflexivity |]. eexists. split; reflexivity.
  - unfold outcome, transact, run. rewrite openBatch_cases.
    sol_cases; try reflexivity. eexists. split; [reflexivity | exact I].
  - unfold outcome, transact, run. rewrite closeBatch_cases.
    sol_cases; try reflexivity. eexists. split; [reflexivity | exact I].
  - unfold outcome, transact, run. rewrite submitData_cases.
    sol_cases; try reflexivity. eexists. split; [reflexivity | exact I].
  - unfold outcome, transact, run. rewrite requestBatchDecryption_cases.
    sol_cases; try reflexivity. eexists. split; reflexivity.
  - unfold outcome, transact, run. rewrite myCallback_cases.
    sol_cases; try reflexivity. eexists. split; reflexivity.
Qed.

End Log.

(** ** Who can change what *)

Section AccessControl.
Context {engine : FHEEngine}.

(** X2.  A transaction from any account other than the owner leaves the
    owner, the pause flag, the cooldown, the provider table, the current
    batch id, the request counter and the decryption-request times as
    they were, and neither opens nor closes any batch. *)
Theorem non_owner_cannot_administer (env : Env) (c : Call) (s : State) :
  msg_sender env <> owner s ->
  owner (transact env c s) = owner s /\
  paused (transact env c s) = paused s /\
  cooldownSeconds (transact env c s) = cooldownSeconds s /\
  isProvider (transact env c s) = isProvider s /\
  currentBatchId (transact env c s) = currentBatchId s /\
  counterRequest (transact env c s) = counterRequest s /\
  lastDecryptionRequestTime (transact env c s) = lastDecryptionRequestTime s /\
  (forall k, open (batch_at (transact env c s) k) = open (batch_at s k)).
Proof.
  intros Hne.
  destruct (owner_gated c) eqn:Hg.
  - pose proof (owner_gated_NotOwner env c s Hg Hne) as Hout.
    unfold outcome in Hout. unfold transact.
    destruct (run env c s); [discriminate Hout |]. repeat split; reflexivity.
  - destruct c as [| | | | | | | v t | | requestId cleartexts proof]; try discriminate Hg.
    + unfold transact, run. rewrite submitData_cases.
      sol_cases; repeat split; try reflexivity; try congruence.
      intros k. unfold batch_at, mapping_get. simpl.
      destruct (decide (currentBatchId s = k)) as [<- | Hk].
      * rewrite lookup_insert_eq. reflexivity.
      * rewrite lookup_insert_ne by exact Hk. reflexivity.
    + unfold transact, run. rewrite myCallback_cases.
      sol_cases; repeat split; reflexivity || congruence.
Qed.

(** X3.  An account that is neither the owner nor a provider gets [NotOwner]
    from every owner-only function and [NotProvider] from [submitData];
    the only call by which it can change the state is [myCallback]. *)
Theorem stranger_only_calls_back (env : Env) (c : Call) (s : State) :
  msg_sender env <> owner s ->
  mapping_get false (isProvider s) (msg_sender env) = false ->
  match c with
  | MyCallback _ _ _ => True
  | SubmitData _ _ => outcome env c s = Some NotProvider /\ transact env c s = s
  | _ => outcome env c s = Some NotOwner /\ transact env c s = s
  end.
Proof.
  intros Hne Hnp.
  assert (Hgated : owner_gated c = true ->
                   outcome env c s = Some NotOwner /\ transact env c s = s).
  { intros Hg. pose proof (owner_gated_NotOwner env c s Hg Hne) as Hout.
    split; [exact Hout |]. unfold outcome in Hout. unfold transact.
    destruct (run env c s); [discriminate Hout | reflexivity]. }
  destruct c; try (apply Hgated; reflexivity); [| exact I].
  unfold outcome, transact, run. rewrite submitData_cases, Hnp. split; reflexivity.
Qed.

(** X4.  While the pause flag is set no transaction, whoever sends it, changes
    a batch, the current batch id, the request counter or a cooldown
    time; a provider's [submitData] reverts with [PausedState]. *)
Theorem paused_ledger_frozen (env : Env) (c : Call) (s : State) :
  paused s = true ->
  batches (transact env c s) = batches s /\
  currentBatchId (transact env c s) = currentBatchId s /\
  counterRequest (transact env c s) = counterRequest s /\
  lastSubmissionTime (transact env c s) = lastSubmissionTime s /\
  lastDecryptionRequestTime (transact env c s) = lastDecryptionRequestTime s /\
  (forall v t, c = SubmitData v t ->
               mapping_get false (isProvider s) (msg_sender env) = true ->
               outcome env c s = Some PausedState).
Proof.
  intros Hp.
  destruct c as [o | p | p | b | cd | | | v t | b | requestId cleartexts proof].
  1-5: sol_unfold; sol_cases; repeat split; (reflexivity || discriminate).
  - unfold transact, run. rewrite openBatch_cases, Hp.
    sol_cases; repeat split; (reflexivity || discriminate).
  - unfold transact, run. rewrite closeBatch_cases, Hp.
    sol_cases; repeat split; (reflexivity || discriminate).
  - unfold outcome, transact, run. rewrite submitData_cases, Hp.
    sol_cases; repeat split; try reflexivity; intros ? ? _ Hprov;
      rewrite Hprov in *; discriminate.
  - unfold transact, run. rewrite requestBatchDecryption_cases, Hp.
    sol_cases; repeat split; (reflexivity || discriminate).
  - unfold transact, run. rewrite myCallback_cases.
    sol_cases; repeat split; (reflexivity || discriminate).
Qed.

(** X5.  The callback is not subject to the pause flag: pausing or unpausing
    by the owner does not change the outcome of any callback, and a
    callback that would complete before the owner pauses completes after. *)
Theorem callback_ignores_pause (env env' : Env) (flag : bool) (requestId : uint256)
    (cleartexts proof : bytes) (s : State) :
  msg_sender env = owner s ->
  outcome env' (MyCallback requestId cleartexts proof) (transact env (SetPaused flag) s)
  = outcome env' (MyCallback requestId cleartexts proof) s /\
  paused (transact env (SetPaused flag) s) = flag.
Proof.
  intros Hown.
  assert (Hs : exists e, transact env (SetPaused flag) s
                         = set_events (events s ++ [e]) (set_paused flag s)).
  { unfold transact, run, setPaused. rewrite onlyOwner_pass by exact Hown.
    destruct flag; eexists; reflexivity. }
  destruct Hs as [e ->]. split; [| reflexivity].
  unfold outcome, run. rewrite !myCallback_cases.
  unfold context_at, batch_digest, batch_at. sol_cases; reflexivity.
Qed.

End AccessControl.

Lemma non_owner_cannot_administer_witness :
  currentBatchId
    (transact (Mock.at_time Mock.bob 2000)
       (SubmitData (Mock.enc 101 5) (Mock.enc 102 10)) Mock.opened) = 1 /\
  open (batch_at
    (transact (Mock.at_time Mock.bob 2000)
       (SubmitData (Mock.enc 101 5) (Mock.enc 102 10)) Mock.opened) 1) = true.
Proof.
  destruct (non_owner_cannot_administer (Mock.at_time Mock.bob 2000)
              (SubmitData (Mock.enc 101 5) (Mock.enc 102 10)) Mock.opened)
    as (_ & _ & _ & _ & Hcur & _ & _ & Hopen).
  - vm_compute. intros H; discriminate H.
  - split; [exact Hcur | exact (Hopen 1)].
Defined.

Lemma stranger_only_calls_back_witness :
  outcome (Mock.at_time Mock.carol 2000)
          (SubmitData (Mock.enc 101 5) (Mock.enc 102 10)) Mock.opened = Some NotProvider /\
  transact (Mock.at_time Mock.carol 2000)
           (SubmitData (Mock.enc 101 5) (Mock.enc 102 10)) Mock.opened = Mock.opened.
Proof.
  apply (stranger_only_calls_back (Mock.at_time Mock.carol 2000)
           (SubmitData (Mock.enc 101 5) (Mock.enc 102 10)) Mock.opened).
  - vm_compute. intros H; discriminate H.
  - reflexivity.
Defined.

Lemma paused_ledger_frozen_witness :
  batches (transact (Mock.at_time Mock.bob 3000)
             (SubmitData (Mock.enc 103 3) (Mock.enc 104 20)) Mock.paused_open)
  = batches Mock.paused_open /\
  outcome (Mock.at_time Mock.bob 3000)
          (SubmitData (Mock.enc 103 3) (Mock.enc 104 20)) Mock.paused_open
  = Some PausedState.
Proof.
  destruct (paused_ledger_frozen (Mock.at_time Mock.bob 3000)
              (SubmitData (Mock.enc 103 3) (Mock.enc 104 20)) Mock.paused_open)
    as (Hb & _ & _ & _ & _ & Hsub).
  - reflexivity.
  - split; [exact Hb |]. apply (Hsub _ _ eq_refl). reflexivity.
Defined.

Lemma callback_ignores_pause_witness :
  outcome (Mock.at_time Mock.carol 6000)
          (MyCallback 0 (Mock.pair_bytes Byte.x08 Byte.x14) [Byte.x01])
          (transact (Mock.at_time Mock.alice 5500) (SetPaused true) Mock.requested)
  = outcome (Mock.at_time Mock.carol 6000)
            (MyCallback 0 (Mock.pair_bytes Byte.x08 Byte.x14) [Byte.x01]) Mock.requested /\
  paused (transact (Mock.at_time Mock.alice 5500) (SetPaused true) Mock.requested) = true.
Proof.
  apply (callback_ignores_pause (Mock.at_time Mock.alice 5500) (Mock.at_time Mock.carol 6000)
           true 0 (Mock.pair_bytes Byte.x08 Byte.x14) [Byte.x01] Mock.requested).
  reflexivity.
Defined.

(** ** Cooldowns *)

Section Cooldown.
Context {engine : FHEEngine}.

Lemma submitData_Ok_gates (env : Env) (v t : euint32) (s s' : State) :
  submitData env v t s = Ok tt s' ->
  s' = submitted_state env v t s /\
  mapping_get false (isProvider s) (msg_sender env) = true /\
  paused s = false /\
  open (batch_at s (currentBatchId s)) = true.
Proof.
  rewrite submitData_cases.
  destruct (mapping_get false (isProvider s) (msg_sender env)); [| discriminate].
  destruct (paused s); [discriminate |]. simpl.
  destruct (negb (_ <=? _)); [discriminate |].
  destruct (_ <? _); [discriminate |].
  destruct (open (batch_at s (currentBatchId s))); [| discriminate]. simpl.
  destruct (_ <=? _); [| discriminate].
  intros [= <-]. repeat split; reflexivity.
Qed.

(** X6.  After an accepted submission at time [t1], a further submission from
    the same account reverts with [CooldownActive] at every time before
    [t1 + cooldownSeconds] and is accepted from then on; accounts other
    than the sender keep their submission time, and the times of the
    decryption requests are not touched. *)
Theorem submission_cooldown (env1 env2 : Env) (v1 t1 v2 t2 : euint32) (s s1 : State) :
  submitData env1 v1 t1 s = Ok tt s1 ->
  msg_sender env2 = msg_sender env1 ->
  block_timestamp env1 + cooldownSeconds s <= MAX_UINT256 ->
  (block_timestamp env2 < block_timestamp env1 + cooldownSeconds s ->
   submitData env2 v2 t2 s1 = Revert CooldownActive) /\
  (block_timestamp env1 + cooldownSeconds s <= block_timestamp env2 ->
   dataCount (batch_at s1 (currentBatchId s1)) < MAX_UINT256 ->
   submitData env2 v2 t2 s1 = Ok tt (submitted_state env2 v2 t2 s1)) /\
  (forall a, a <> msg_sender env1 ->
             mapping_get 0 (lastSubmissionTime s1) a = mapping_get 0 (lastSubmissionTime s) a) /\
  lastDecryptionRequestTime s1 = lastDecryptionRequestTime s.
Proof.
  intros Hok Hsame Hfit.
  apply submitData_Ok_gates in Hok. destruct Hok as (-> & Hprov & Hp & Hopen).
  assert (Hlast : mapping_get 0 (lastSubmissionTime (submitted_state env1 v1 t1 s))
                    (msg_sender env2) = block_timestamp env1).
  { rewrite Hsame. unfold mapping_get. simpl. rewrite lookup_insert_eq. reflexivity. }
  assert (Hopen' : open (batch_at (submitted_state env1 v1 t1 s)
                           (currentBatchId (submitted_state env1 v1 t1 s))) = true).
  { unfold batch_at, mapping_get. simpl. rewrite lookup_insert_eq. exact Hopen. }
  assert (Hhead : forall v t,
    submitData env2 v t (submitted_state env1 v1 t1 s) =
    if block_timestamp env2 <? block_timestamp env1 + cooldownSeconds s
    then Revert CooldownActive
    else if dataCount (batch_at (submitted_state env1 v1 t1 s)
                         (currentBatchId (submitted_state env1 v1 t1 s))) + 1 <=? MAX_UINT256
         then Ok tt (submitted_state env2 v t (submitted_state env1 v1 t1 s))
         else Revert Panic).
  { intros v t. rewrite submitData_cases, Hlast, Hopen'.
    replace (mapping_get false (isProvider (submitted_state env1 v1 t1 s)) (msg_sender env2))
      with true by (rewrite Hsame; symmetry; exact Hprov).
    replace (paused (submitted_state env1 v1 t1 s)) with false by (symmetry; exact Hp).
    replace (cooldownSeconds (submitted_state env1 v1 t1 s)) with (cooldownSeconds s)
      by reflexivity.
    simpl negb. cbv iota.
    destruct (N.leb_spec (block_timestamp env1 + cooldownSeconds s) MAX_UINT256); [| lia].
    reflexivity. }
  split; [| split; [| split]].
  - intros Hearly. rewrite Hhead.
    destruct (N.ltb_spec (block_timestamp env2) (block_timestamp env1 + cooldownSeconds s));
      [reflexivity | lia].
  - intros Hlate Hroom. rewrite Hhead.
    destruct (N.ltb_spec (block_timestamp env2) (block_timestamp env1 + cooldownSeconds s));
      [lia |].
    destruct (N.leb_spec (dataCount (batch_at (submitted_state env1 v1 t1 s)
                            (currentBatchId (submitted_state env1 v1 t1 s))) + 1) MAX_UINT256)
      as [_ | Hover]; [reflexivity |].
    unfold MAX_UINT256 in *. lia.
  - intros a Ha. unfold mapping_get. simpl. rewrite lookup_insert_ne by congruence. reflexivity.
  - reflexivity.
Qed.

Lemma requestBatchDecryption_Ok_gates (env : Env) (b : uint256) (s s' : State) :
  requestBatchDecryption env b s = Ok tt s' ->
  s' = requested_state env b s /\
  msg_sender env = owner s /\
  paused s = false.
Proof.
  rewrite requestBatchDecryption_cases.
  destruct (N.eqb_spec (msg_sender env) (owner s)) as [Hown |]; [| discriminate]. simpl.
  destruct (paused s); [discriminate |].
  destruct (negb (_ <=? _)); [discriminate |].
  destruct (_ <? _); [discriminate |].
  destruct (_ || _ || _); [discriminate |].
  destruct (_ <=? _); [| discriminate].
  intros [= <-]. repeat split; [exact Hown].
Qed.

(** X7.  After a decryption request that went through at time [t1], a further
    request by the owner, for whatever batch, reverts with
    [CooldownActive] at every time before [t1 + cooldownSeconds]; the
    request leaves the submission times, and so the owner's own
    submission cooldown, untouched. *)
Theorem request_cooldown (env1 env2 : Env) (b1 b2 : uint256) (s s1 : State) :
  requestBatchDecryption env1 b1 s = Ok tt s1 ->
  msg_sender env2 = msg_sender env1 ->
  block_timestamp env1 + cooldownSeconds s <= MAX_UINT256 ->
  block_timestamp env2 < block_timestamp env1 + cooldownSeconds s ->
  requestBatchDecryption env2 b2 s1 = Revert CooldownActive /\
  lastSubmissionTime s1 = lastSubmissionTime s.
Proof.
  intros Hok Hsame Hfit Hearly.
  apply requestBatchDecryption_Ok_gates in Hok. destruct Hok as (-> & Hown & Hp).
  split; [| reflexivity].
  rewrite requestBatchDecryption_cases.
  replace (owner (requested_state env1 b1 s)) with (owner s) by reflexivity.
  replace (paused (requested_state env1 b1 s)) with false by (symmetry; exact Hp).
  replace (cooldownSeconds (requested_state env1 b1 s)) with (cooldownSeconds s) by reflexivity.
  replace (mapping_get 0 (lastDecryptionRequestTime (requested_state env1 b1 s))
             (msg_sender env2)) with (block_timestamp env1).
  2: { rewrite Hsame. unfold mapping_get. simpl. rewrite lookup_insert_eq. reflexivity. }
  rewrite Hsame, Hown, N.eqb_refl. simpl.
  destruct (N.leb_spec (block_timestamp env1 + cooldownSeconds s) MAX_UINT256); [| lia].
  simpl.
  destruct (N.ltb_spec (block_timestamp env2) (block_timestamp env1 + cooldownSeconds s));
    [reflexivity | lia].
Qed.

End Cooldown.

Lemma submission_cooldown_witness :
  submitData (Mock.at_time Mock.bob 2010) (Mock.enc 103 3) (Mock.enc 104 20)
    (transact (Mock.at_time Mock.bob 2000)
       (SubmitData (Mock.enc 101 5) (Mock.enc 102 10)) Mock.opened)
  = Revert CooldownActive.
Proof.
  refine (proj1 (@submission_cooldown Mock.engine
            (Mock.at_time Mock.bob 2000) (Mock.at_time Mock.bob 2010)
            (Mock.enc 101 5) (Mock.enc 102 10) (Mock.enc 103 3) (Mock.enc 104 20)
            Mock.opened _ _ _ _) _).
  - vm_compute. reflexivity.
  - reflexivity.
  - vm_compute. intros H; discriminate H.
  - vm_compute. reflexivity.
Defined.

Lemma request_cooldown_witness :
  requestBatchDecryption (Mock.at_time Mock.alice 5030) 1 Mock.requested
  = Revert CooldownActive.
Proof.
  refine (proj1 (@request_cooldown Mock.engine
            (Mock.at_time Mock.alice 5000) (Mock.at_time Mock.alice 5030) 1 1
            Mock.closed Mock.requested _ _ _ _)).
  - vm_compute. reflexivity.
  - reflexivity.
  - vm_compute. intros H; discriminate H.
  - vm_compute. reflexivity.
Defined.

(** ** Batches over time *)

Section BatchHistory.
Context {engine : FHEEngine}.

(** One transaction leaves a closed batch with an allocated number alone. *)
Lemma closed_batch_transact (env : Env) (c : Call) (s : State) (k : uint256) :
  k <= currentBatchId s ->
  open (batch_at s k) = false ->
  k <= currentBatchId (transact env c s) /\
  batch_at (transact env c s) k = batch_at s k.
Proof.
  intros Hk Hclosed.
  destruct c as [o | p | p | b | cd | | | v t | b | requestId cleartexts proof].
  1-5, 9-10:
    match goal with |- context [transact _ ?c _] =>
      destruct (batches_other env c s I) as (Hb & Hcur & _) end;
    unfold batch_at; rewrite Hb, Hcur; split; [exact Hk | reflexivity].
  - unfold transact, run. rewrite openBatch_cases.
    sol_cases; try (split; [exact Hk | reflexivity]).
    split; [lia |]. unfold batch_at, mapping_get. simpl.
    rewrite lookup_insert_ne by lia. reflexivity.
  - unfold transact, run. rewrite closeBatch_cases.
    sol_cases; try (split; [exact Hk | reflexivity]).
    split; [exact Hk |]. unfold batch_at, mapping_get. simpl.
    destruct (decide (currentBatchId s = k)) as [Heq | Hne].
    + rewrite Heq in *. congruence.
    + rewrite lookup_insert_ne by exact Hne. reflexivity.
  - unfold transact, run. rewrite submitData_cases.
    sol_cases; try (split; [exact Hk | reflexivity]).
    split; [exact Hk |]. unfold batch_at, mapping_get. simpl.
    destruct (decide (currentBatchId s = k)) as [Heq | Hne].
    + rewrite Heq in *.
      match goal with H : negb (open _) = false |- _ => apply negb_false_iff in H end.
      congruence.
    + rewrite lookup_insert_ne by exact Hne. reflexivity.
Qed.

(** X8.  Closing is final.  A batch that is closed stays exactly as it is,
    whatever transactions follow: it is never reopened, it takes no
    further submission, and its count and both accumulators keep their
    values. *)
Theorem closed_batch_frozen (txs : list (Env * Call)) (s : State) (k : uint256) :
  k <= currentBatchId s ->
  open (batch_at s k) = false ->
  batch_at (transact_all txs s) k = batch_at s k.
Proof.
  revert s. induction txs as [| [env c] txs IH]; intros s Hk Hclosed.
  - reflexivity.
  - change (transact_all ((env, c) :: txs) s) with (transact_all txs (transact env c s)).
    destruct (closed_batch_transact env c s k Hk Hclosed) as [Hk' Hsame].
    rewrite IH; [exact Hsame | exact Hk' |]. rewrite Hsame. exact Hclosed.
Qed.

(** One transaction raises the count of an allocated batch by one when
    it is a submission accepted into that batch, and not at all otherwise. *)
Lemma dataCount_transact (env : Env) (c : Call) (s : State) (k : uint256) :
  k <= currentBatchId s ->
  k <= currentBatchId (transact env c s) /\
  dataCount (batch_at (transact env c s) k)
  = dataCount (batch_at s k) + N.of_nat (length (accepted env c s k)).
Proof.
  intros Hk. unfold accepted.
  destruct c as [o | p | p | b | cd | | | v t | b | requestId cleartexts proof].
  1-5, 9-10:
    match goal with |- context [transact _ ?c _] =>
      destruct (batches_other env c s I) as (Hb & Hcur & _) end;
    unfold batch_at; rewrite Hb, Hcur; simpl; split; [exact Hk | lia].
  - unfold transact. simpl run. rewrite openBatch_cases.
    sol_cases; try (split; [exact Hk | lia]).
    split; [lia |]. unfold batch_at, mapping_get. simpl.
    rewrite lookup_insert_ne by lia. rewrite N.add_0_r. reflexivity.
  - unfold transact. simpl run. rewrite closeBatch_cases.
    sol_cases; try (split; [exact Hk | lia]).
    split; [exact Hk |]. unfold batch_at, mapping_get. simpl.
    destruct (decide (currentBatchId s = k)) as [<- | Hne].
    + rewrite lookup_insert_eq. simpl. rewrite N.add_0_r. reflexivity.
    + rewrite lookup_insert_ne by exact Hne. simpl. rewrite N.add_0_r. reflexivity.
  - unfold transact. simpl run. rewrite submitData_cases.
    destruct (N.eqb_spec (currentBatchId s) k) as [<- | Hne];
      sol_cases; (split; [exact Hk |]);
      unfold batch_at, mapping_get; simpl;
      rewrite ?lookup_insert_eq, ?lookup_insert_ne by exact Hne; simpl;
      rewrite ?N.add_0_r; reflexivity.
Qed.

(** X9.  The count of the batch a successful [openBatch] creates is, after any
    run of transactions, the number of submissions accepted into it. *)
Theorem dataCount_counts_submissions (env0 : Env) (s0 s : State) (txs : list (Env * Call)) :
  openBatch env0 s0 = Ok tt s ->
  dataCount (batch_at (transact_all txs s) (currentBatchId s))
  = N.of_nat (length (submitted txs s (currentBatchId s))).
Proof.
  intros Hopen. apply openBatch_Ok in Hopen. destruct Hopen as (_ & Hcur & Hb & _).
  assert (Hzero : dataCount (batch_at s (currentBatchId s)) = 0).
  { unfold batch_at, mapping_get. rewrite Hb, Hcur, lookup_insert_eq. reflexivity. }
  assert (Hgen : forall l st k, k <= currentBatchId st ->
            dataCount (batch_at (transact_all l st) k)
            = dataCount (batch_at st k) + N.of_nat (length (submitted l st k))).
  { induction l as [| [env c] l IH]; intros st k Hk.
    - simpl. lia.
    - change (transact_all ((env, c) :: l) st) with (transact_all l (transact env c st)).
      change (submitted ((env, c) :: l) st k)
        with (accepted env c st k ++ submitted l (transact env c st) k).
      destruct (dataCount_transact env c st k Hk) as [Hk' Hstep].
      rewrite (IH _ _ Hk'), Hstep, length_app. lia. }
  rewrite Hgen by lia. rewrite Hzero. lia.
Qed.

End BatchHistory.

(** Batch 1 of the reference run is closed; a late submission and a
    second [closeBatch] leave it as it is. *)
Lemma closed_batch_frozen_witness :
  batch_at (transact_all [ (Mock.at_time Mock.bob 4100,
                            SubmitData (Mock.enc 105 9) (Mock.enc 106 99));
                           (Mock.at_time Mock.alice 4200, CloseBatch) ] Mock.closed) 1
  = batch_at Mock.closed 1.
Proof.
  apply (closed_batch_frozen _ Mock.closed 1).
  - vm_compute. intros H; discriminate H.
  - reflexivity.
Defined.

Lemma dataCount_counts_submissions_witness :
  dataCount (batch_at (transact_all Mock.falling Mock.opened) (currentBatchId Mock.opened))
  = N.of_nat (length (submitted Mock.falling Mock.opened (currentBatchId Mock.opened))).
Proof.
  refine (@dataCount_counts_submissions Mock.engine (Mock.at_time Mock.alice 1002)
            Mock.registered Mock.opened Mock.falling _).
  vm_compute. reflexivity.
Defined.

(** ** The decryption bridge over time *)

Section Bridge.
Context {engine : FHEEngine}.

(** The calls other than a request and a callback leave the bridge alone. *)
Lemma bridge_other (env : Env) (c : Call) (s : State) :
  match c with RequestBatchDecryption _ | MyCallback _ _ _ => False | _ => True end ->
  decryptionContexts (transact env c s) = decryptionContexts s /\
  counterRequest (transact env c s) = counterRequest s /\
  requested_ids (events (transact env c s)) = requested_ids (events s) /\
  completed_ids (events (transact env c s)) = completed_ids (events s).
Proof.
  intros Hc. unfold requested_ids, completed_ids.
  destruct c as [o | p | p | b | cd | | | v t | b | requestId cleartexts proof];
    try contradiction.
  1-5: sol_unfold; sol_cases; rewrite ?flat_map_app; simpl; rewrite ?app_nil_r;
       repeat split; reflexivity.
  - unfold transact, run. rewrite openBatch_cases.
    sol_cases; rewrite ?flat_map_app; simpl; rewrite ?app_nil_r; repeat split; reflexivity.
  - unfold transact, run. rewrite closeBatch_cases.
    sol_cases; rewrite ?flat_map_app; simpl; rewrite ?app_nil_r; repeat split; reflexivity.
  - unfold transact, run. rewrite submitData_cases.
    sol_cases; rewrite ?flat_map_app; simpl; rewrite ?app_nil_r; repeat split; reflexivity.
Qed.

Lemma batch_digest_same (s s' : State) (k : uint256) :
  batch_at s' k = batch_at s k -> batch_digest s' k = batch_digest s k.
Proof. intros H. unfold batch_digest. rewrite H. reflexivity. Qed.

Lemma context_inv_constructor (env : Env) : context_inv (constructor env).
Proof.
  split; simpl.
  - intros r. rewrite lookup_empty. split; [intros [? H]; discriminate H | lia].
  - intros r ctx H. rewrite lookup_empty in H. discriminate H.
  - intros r ctx H. rewrite lookup_empty in H. discriminate H.
Qed.

(** A context of [s] keeps its meaning across a transaction that does
    not rewrite it. *)
Lemma context_inv_carry (env : Env) (c : Call) (s : State) (ctx : DecryptionContext) :
  1 <= batchId ctx <= currentBatchId s /\ open (batch_at s (batchId ctx)) = false ->
  stateHash ctx = batch_digest s (batchId ctx) ->
  (1 <= batchId ctx <= currentBatchId (transact env c s) /\
   open (batch_at (transact env c s) (batchId ctx)) = false) /\
  stateHash ctx = batch_digest (transact env c s) (batchId ctx).
Proof.
  intros [[Hlo Hhi] Hclosed] Hd.
  destruct (closed_batch_transact env c s (batchId ctx) Hhi Hclosed) as [Hhi' Hsame].
  rewrite (batch_digest_same _ _ _ Hsame), Hsame. repeat split; assumption.
Qed.

Lemma context_inv_transact (env : Env) (c : Call) (s : State) :
  context_inv s -> context_inv (transact env c s).
Proof.
  intros [Hiss Hbat Hdig].
  destruct c as [o | p | p | fl | cd | | | v t | b | requestId cleartexts proof].
  1-8:
    match goal with |- context_inv (transact _ ?c _) =>
      destruct (bridge_other env c s I) as (Hc & Hn & _);
      split; rewrite ?Hc, ?Hn; [exact Hiss | |];
      intros r ctx Hr;
      apply (context_inv_carry env c s ctx (Hbat r ctx Hr) (Hdig r ctx Hr))
    end.
  - destruct (requestBatchDecryption env b s) as [[] s' |] eqn:Hreq.
    2: { unfold transact, run. rewrite Hreq. split; assumption. }
    assert (Hs' : transact env (RequestBatchDecryption b) s = s')
      by (unfold transact, run; rewrite Hreq; reflexivity).
    pose proof (requestBatchDecryption_Ok _ _ _ _ Hreq)
      as (Hc & Hn & Hb & Hcur & Hnz & Hle & Hclosed).
    assert (Hfresh : decryptionContexts s !! counterRequest s = None).
    { destruct (decryptionContexts s !! counterRequest s) eqn:E; [| reflexivity].
      assert (His : is_Some (decryptionContexts s !! counterRequest s)) by (rewrite E; eauto).
      apply Hiss in His. lia. }
    rewrite Hs'. split; rewrite ?Hc, ?Hn, ?Hcur.
    + intros r. rewrite lookup_insert_is_Some, Hiss. lia.
    + intros r ctx. rewrite lookup_insert_Some. unfold batch_at. rewrite Hb.
      intros [[<- <-] | [_ Hr]]; [| apply (Hbat r ctx Hr)].
      simpl. split; [lia | exact Hclosed].
    + intros r ctx. rewrite lookup_insert_Some. unfold batch_digest, batch_at. rewrite Hb.
      intros [[<- <-] | [_ Hr]]; [reflexivity | apply (Hdig r ctx Hr)].
  - destruct (contexts_transact env (MyCallback requestId cleartexts proof) s)
      as [[Hc Hn] | [(b & h & Hc & Hn) | (r0 & _ & Hb0 & Hc & Hn)]].
    + split; rewrite ?Hc, ?Hn; [exact Hiss | |]; intros r ctx Hr;
        apply (context_inv_carry _ _ s ctx (Hbat r ctx Hr) (Hdig r ctx Hr)).
    + exfalso.
      assert (Hsame : counterRequest (transact env (MyCallback requestId cleartexts proof) s)
                      = counterRequest s).
      { unfold transact, run. rewrite myCallback_cases. sol_cases; reflexivity. }
      lia.
    + assert (Hex : exists ctx0, decryptionContexts s !! r0 = Some ctx0).
      { destruct (decryptionContexts s !! r0) eqn:E; [eauto |].
        exfalso. apply Hb0. rewrite (context_at_None _ _ E). reflexivity. }
      destruct Hex as [ctx0 Hctx0]. rewrite (context_at_Some _ _ _ Hctx0) in Hc.
      split; rewrite ?Hc, ?Hn.
      * intros r. rewrite lookup_insert_is_Some, Hiss.
        assert (r0 < counterRequest s) by (apply Hiss; rewrite Hctx0; eauto). lia.
      * intros r ctx. rewrite lookup_insert_Some. intros [[<- <-] | [_ Hr]].
        -- apply (context_inv_carry _ _ s (with_processed true ctx0)
                    (Hbat _ _ Hctx0) (Hdig _ _ Hctx0)).
        -- apply (context_inv_carry _ _ s ctx (Hbat r ctx Hr) (Hdig r ctx Hr)).
      * intros r ctx. rewrite lookup_insert_Some. intros [[<- <-] | [_ Hr]].
        -- apply (context_inv_carry _ _ s (with_processed true ctx0)
                    (Hbat _ _ Hctx0) (Hdig _ _ Hctx0)).
        -- apply (context_inv_carry _ _ s ctx (Hbat r ctx Hr) (Hdig r ctx Hr)).
Qed.

Lemma context_inv_reachable (s : State) : reachable s -> context_inv s.
Proof.
  induction 1 as [env | env c s _ IH].
  - apply context_inv_constructor.
  - apply context_inv_transact, IH.
Qed.

(** X10.  In a reachable state contexts exist exactly under the request ids
    already handed out; a callback reverts with [InvalidBatch] exactly
    when its request id has no context, and no callback reverts with
    [StateMismatch]: the digest stored at the request always matches the
    batch, because a requested batch is closed and stays as it is. *)
Theorem callback_outcomes_reachable (requestId : uint256) (cleartexts proof : bytes)
    (s : State) :
  reachable s ->
  (decryptionContexts s !! requestId = None <-> counterRequest s <= requestId) /\
  (myCallback requestId cleartexts proof s = Revert InvalidBatch <->
   decryptionContexts s !! requestId = None) /\
  myCallback requestId cleartexts proof s <> Revert StateMismatch.
Proof.
  intros Hreach. destruct (context_inv_reachable s Hreach) as [Hiss Hbat Hdig].
  split.
  { rewrite <- N.nlt_ge, <- Hiss. rewrite eq_None_not_Some. reflexivity. }
  rewrite myCallback_cases.
  destruct (decryptionContexts s !! requestId) as [ctx |] eqn:Hctx.
  - rewrite (context_at_Some _ _ _ Hctx). simpl.
    destruct (Hbat _ _ Hctx) as [[Hlo Hhi] _]. pose proof (Hdig _ _ Hctx) as Hd.
    destruct (N.eqb_spec (batchId ctx) 0); [lia |].
    destruct (N.ltb_spec (currentBatchId s) (batchId ctx)); [lia |].
    rewrite <- Hd, N.eqb_refl. simpl.
    destruct (processed ctx); [split; [split; discriminate | discriminate] |].
    destruct (negb (FHE_checkSignatures _ _ _)); [split; [split; discriminate | discriminate] |].
    destruct (abi_decode_uint32_pair cleartexts) as [[? ?] |];
      (split; [split; discriminate | discriminate]).
  - rewrite (context_at_None _ _ Hctx). simpl.
    split; [split; reflexivity | discriminate].
Qed.

(** X11.  A request that went through can be completed: whatever transactions
    follow it, as long as its context is still unprocessed a callback
    with a proof the engine accepts and cleartexts that decode to a pair
    goes through, marks the context processed and logs the completion of
    that request for the requested batch with the decoded pair. *)
Theorem request_then_complete (env : Env) (b : uint256) (s0 s1 : State)
    (txs : list (Env * Call)) (cleartexts proof : bytes) (total maxT : N) :
  reachable s0 ->
  requestBatchDecryption env b s0 = Ok tt s1 ->
  processed (context_at (transact_all txs s1) (counterRequest s0)) = false ->
  FHE_checkSignatures (counterRequest s0) cleartexts proof = true ->
  abi_decode_uint32_pair cleartexts = Some (total, maxT) ->
  exists s',
    myCallback (counterRequest s0) cleartexts proof (transact_all txs s1) = Ok tt s' /\
    processed (context_at s' (counterRequest s0)) = true /\
    events s' = events (transact_all txs s1)
                ++ [DecryptionCompleted (counterRequest s0) b total maxT].
Proof.
  intros Hreach Hreq Hun Hsig Hdec.
  assert (Hs1 : reachable s1).
  { replace s1 with (transact env (RequestBatchDecryption b) s0).
    - apply reachable_call, Hreach.
    - unfold transact, run. rewrite Hreq. reflexivity. }
  pose proof (reachable_transact_all txs s1 Hs1) as Hlater.
  destruct (context_inv_reachable _ Hlater) as [Hiss Hbat Hdig].
  apply requestBatchDecryption_Ok in Hreq. destruct Hreq as (Hc & Hn & _ & _ & Hnz & _).
  destruct (context_kept_transact_all txs s1 (counterRequest s0)) as [Hkb _]; [lia |].
  assert (Hb1 : batchId (context_at s1 (counterRequest s0)) = b).
  { unfold context_at, mapping_get. rewrite Hc, lookup_insert_eq. reflexivity. }
  rewrite Hb1 in Hkb.
  set (later := transact_all txs s1) in *.
  destruct (decryptionContexts later !! counterRequest s0) as [ctx |] eqn:Hctx.
  2: { exfalso. rewrite (context_at_None _ _ Hctx) in Hkb. simpl in Hkb.
       apply Hnz. symmetry. exact Hkb. }
  pose proof (context_at_Some _ _ _ Hctx) as Hat.
  destruct (Hbat _ _ Hctx) as [Hrange _]. pose proof (Hdig _ _ Hctx) as Hd.
  exists (completed_state (counterRequest s0) total maxT later).
  split.
  - apply myCallback_passing; rewrite ?Hat.
    + rewrite <- Hat. exact Hun.
    + exact Hrange.
    + symmetry. exact Hd.
    + exact Hsig.
    + exact Hdec.
  - split.
    + unfold completed_state, context_at, mapping_get. simpl.
      rewrite lookup_insert_eq. reflexivity.
    + unfold completed_state. simpl. rewrite Hkb. reflexivity.
Qed.

End Bridge.

Lemma callback_outcomes_reachable_witness :
  (decryptionContexts Mock.requested !! 7 = None <-> counterRequest Mock.requested <= 7) /\
  myCallback 0 (Mock.pair_bytes Byte.x08 Byte.x14) [Byte.x01] Mock.requested
    <> Revert StateMismatch.
Proof.
  split.
  - exact (proj1 (callback_outcomes_reachable 7 [] [] Mock.requested
                    (proj1 (proj2 (proj2 reference_run_reachable))))).
  - exact (proj2 (proj2 (callback_outcomes_reachable 0 (Mock.pair_bytes Byte.x08 Byte.x14)
                           [Byte.x01] Mock.requested
                           (proj1 (proj2 (proj2 reference_run_reachable)))))).
Defined.

(** After the request for batch 1, the owner opens batch 2 and a reading
    goes into it; the callback for request 0 still completes. *)
Lemma request_then_complete_witness :
  exists s',
    myCallback 0 (Mock.pair_bytes Byte.x08 Byte.x14) [Byte.x01]
      (transact_all [ (Mock.at_time Mock.alice 5100, OpenBatch);
                      (Mock.at_time Mock.bob 5200,
                       SubmitData (Mock.enc 107 1) (Mock.enc 108 2)) ] Mock.requested)
    = Ok tt s' /\
    processed (context_at s' 0) = true /\
    events s'
    = events (transact_all [ (Mock.at_time Mock.alice 5100, OpenBatch);
                             (Mock.at_time Mock.bob 5200,
                              SubmitData (Mock.enc 107 1) (Mock.enc 108 2)) ] Mock.requested)
      ++ [DecryptionCompleted 0 1 8 20].
Proof.
  apply (request_then_complete (Mock.at_time Mock.alice 5000) 1 Mock.closed Mock.requested
           [ (Mock.at_time Mock.alice 5100, OpenBatch);
             (Mock.at_time Mock.bob 5200, SubmitData (Mock.enc 107 1) (Mock.enc 108 2)) ]
           (Mock.pair_bytes Byte.x08 Byte.x14) [Byte.x01] 8 20).
  - apply reference_run_reachable.
  - vm_compute. reflexivity.
  - vm_compute. reflexivity.
  - vm_compute. reflexivity.
  - vm_compute. reflexivity.
Defined.

(** ** The log and the bridge *)

Section LogOfBridge.
Context {engine : FHEEngine}.

Lemma ids_below_succ (n : uint256) : ids_below (n + 1) = ids_below n ++ [n].
Proof.
  unfold ids_below. replace (N.to_nat (n + 1)) with (S (N.to_nat n)) by lia.
  rewrite seq_S, map_app. simpl. do 2 f_equal. lia.
Qed.

Lemma log_inv_constructor (env : Env) : log_inv (constructor env).
Proof.
  split; simpl.
  - reflexivity.
  - constructor.
  - intros r. split; [intros [] | discriminate].
Qed.

Lemma log_inv_transact (env : Env) (c : Call) (s : State) :
  fresh_ids s -> log_inv s -> log_inv (transact env c s).
Proof.
  intros Hfresh [Hreq Honce Hproc].
  destruct c as [o | p | p | fl | cd | | | v t | b | requestId cleartexts proof].
  1-8:
    match goal with |- log_inv (transact _ ?c _) =>
      destruct (bridge_other env c s I) as (Hc & Hn & Hr & Hd);
      split; unfold context_at; rewrite ?Hc, ?Hn, ?Hr, ?Hd; assumption
    end.
  - unfold transact, run. rewrite requestBatchDecryption_cases.
    sol_cases; try (split; assumption).
    unfold requested_state.
    split; unfold requested_ids, completed_ids, context_at, mapping_get in *; simpl;
      rewrite flat_map_app; simpl.
    + rewrite Hreq, ids_below_succ. reflexivity.
    + rewrite app_nil_r. exact Honce.
    + rewrite app_nil_r. intros r. rewrite Hproc.
      destruct (decide (counterRequest s = r)) as [<- | Hne].
      * rewrite lookup_insert_eq, (Hfresh (counterRequest s)) by lia. reflexivity.
      * rewrite lookup_insert_ne by exact Hne. reflexivity.
  - unfold transact, run.
    destruct (myCallback requestId cleartexts proof s) as [[] s' |] eqn:Hok;
      [| split; assumption].
    destruct (myCallback_Ok _ _ _ _ _ Hok) as (Hbefore & _ & t & m & ->).
    assert (Hnew : ~ In requestId (completed_ids (events s))).
    { rewrite Hproc, Hbefore. discriminate. }
    unfold completed_state.
    split; unfold requested_ids, completed_ids, context_at, mapping_get in *; simpl;
      rewrite flat_map_app; simpl.
    + rewrite app_nil_r. exact Hreq.
    + apply NoDup_app. split; [exact Honce |]. split; [| apply NoDup_singleton].
      intros x Hx. rewrite list_elem_of_In in Hx. intros Hin.
      apply list_elem_of_In in Hin. destruct Hin as [<- | []]. contradiction.
    + intros r. rewrite in_app_iff, Hproc. simpl.
      destruct (decide (requestId = r)) as [<- | Hne].
      * rewrite lookup_insert_eq. simpl.
        split; [reflexivity | intros _; right; left; reflexivity].
      * rewrite lookup_insert_ne by exact Hne. split; [| intros H; left; exact H].
        intros [H | [H | []]]; [exact H | contradiction].
Qed.

Lemma log_inv_reachable (s : State) : reachable s -> log_inv s.
Proof.
  induction 1 as [env | env c s Hs IH].
  - apply log_inv_constructor.
  - apply log_inv_transact; [apply fresh_ids_reachable, Hs | exact IH].
Qed.

(** X12.  In a reachable state the log and the bridge agree: the requests in
    the log carry the ids 0, 1, 2, ... in that order, up to the request
    counter; no request id has more than one completion in the log; and
    a request id has a completion in the log exactly when its context is
    processed. *)
Theorem log_matches_bridge (s : State) (requestId : uint256) :
  reachable s ->
  requested_ids (events s) = ids_below (counterRequest s) /\
  NoDup (completed_ids (events s)) /\
  (In requestId (completed_ids (events s)) <->
   processed (context_at s requestId) = true).
Proof.
  intros Hreach. destruct (log_inv_reachable s Hreach) as [Hreq Honce Hproc].
  split; [exact Hreq |]. split; [exact Honce | apply Hproc].
Qed.

End LogOfBridge.

Lemma log_matches_bridge_witness :
  requested_ids (events Mock.completed) = ids_below (counterRequest Mock.completed) /\
  NoDup (completed_ids (events Mock.completed)) /\
  (In 0 (completed_ids (events Mock.completed)) <->
   processed (context_at Mock.completed 0) = true).
Proof.
  apply (log_matches_bridge Mock.completed 0).
  apply reference_run_reachable.
Defined.

(** ** The batch lifecycle *)

Section Lifecycle.
Context {engine : FHEEngine}.

Lemma openBatch_Ok_gates (env : Env) (s s' : State) :
  openBatch env s = Ok tt s' ->
  s' = opened_state s /\ paused s = false /\ currentBatchId s + 1 <= MAX_UINT256.
Proof.
  rewrite openBatch_cases.
  destruct (negb (_ =? _)); [discriminate |].
  destruct (paused s); [discriminate |].
  destruct (open _); [discriminate |].
  destruct (N.leb_spec (currentBatchId s + 1) MAX_UINT256); [| discriminate].
  intros [= <-]. repeat split; assumption.
Qed.

(** X13.  Once the owner has opened a batch, a second [openBatch] reverts with
    [BatchOpen] and [closeBatch] goes through; after it a second
    [closeBatch] reverts with [BatchNotOpen], and the next [openBatch]
    allocates the following number and leaves the closed batch as it is. *)
Theorem open_close_cycle (env0 env1 env2 : Env) (s s1 : State) :
  openBatch env0 s = Ok tt s1 ->
  msg_sender env1 = owner s ->
  msg_sender env2 = owner s ->
  openBatch env1 s1 = Revert BatchOpen /\
  closeBatch env1 s1 = Ok tt (closed_state s1) /\
  closeBatch env2 (closed_state s1) = Revert BatchNotOpen /\
  (currentBatchId s + 2 <= MAX_UINT256 ->
   openBatch env2 (closed_state s1) = Ok tt (opened_state (closed_state s1)) /\
   currentBatchId (opened_state (closed_state s1)) = currentBatchId s + 2 /\
   open (batch_at (opened_state (closed_state s1)) (currentBatchId s + 1)) = false /\
   open (batch_at (opened_state (closed_state s1)) (currentBatchId s + 2)) = true).
Proof.
  intros Hopen H1 H2.
  apply openBatch_Ok_gates in Hopen. destruct Hopen as (-> & Hp & Hfit).
  assert (Hcur : batches (opened_state s) !! (currentBatchId s + 1)
                 = Some (mkBatch (currentBatchId s + 1) true 0
                                 (FHE_asEuint32 0) (FHE_asEuint32 0))).
  { unfold opened_state. simpl. apply lookup_insert_eq. }
  split; [| split; [| split]].
  - rewrite openBatch_cases. simpl. rewrite H1, N.eqb_refl, Hp. simpl.
    unfold batch_at, mapping_get. simpl. rewrite lookup_insert_eq. reflexivity.
  - rewrite closeBatch_cases. simpl. rewrite H1, N.eqb_refl, Hp. simpl.
    unfold batch_at, mapping_get. simpl. rewrite lookup_insert_eq. reflexivity.
  - rewrite closeBatch_cases. simpl. rewrite H2, N.eqb_refl, Hp. simpl.
    unfold batch_at, mapping_get. simpl. rewrite !lookup_insert_eq. reflexivity.
  - intros Hroom.
    split; [| split; [| split]].
    + rewrite openBatch_cases. simpl. rewrite H2, N.eqb_refl, Hp. simpl.
      unfold batch_at, mapping_get. simpl. rewrite !lookup_insert_eq. simpl.
      destruct (N.leb_spec (currentBatchId s + 1 + 1) MAX_UINT256); [reflexivity | lia].
    + simpl. lia.
    + unfold batch_at, mapping_get. simpl.
      rewrite lookup_insert_ne by lia. rewrite !lookup_insert_eq. reflexivity.
    + unfold batch_at, mapping_get. simpl.
      replace (currentBatchId s + 2) with (currentBatchId s + 1 + 1) by lia.
      rewrite lookup_insert_eq. reflexivity.
Qed.

End Lifecycle.

Lemma open_close_cycle_witness :
  openBatch (Mock.at_time Mock.alice 1003) Mock.opened = Revert BatchOpen /\
  closeBatch (Mock.at_time Mock.alice 1003) Mock.opened = Ok tt (closed_state Mock.opened).
Proof.
  destruct (open_close_cycle (Mock.at_time Mock.alice 1002) (Mock.at_time Mock.alice 1003)
              (Mock.at_time Mock.alice 1004) Mock.registered Mock.opened)
    as (Ho & Hc & _).
  - vm_compute. reflexivity.
  - reflexivity.
  - reflexivity.
  - split; [exact Ho | exact Hc].
Defined.

(** ** Providers and owners *)

Section Roles.
Context {engine : FHEEngine}.

(** X14.  The owner's [removeProvider] shuts an account out of [submitData]
    ([NotProvider]), [addProvider] lets it past that gate, neither
    touches the standing of any other account, and removing an account
    that was added to a table without it gives the table back. *)
Theorem provider_registry (env envp : Env) (p : address) (v t : euint32) (s : State) :
  msg_sender env = owner s ->
  msg_sender envp = p ->
  submitData envp v t (transact env (RemoveProvider p) s) = Revert NotProvider /\
  submitData envp v t (transact env (AddProvider p) s) <> Revert NotProvider /\
  (forall q, q <> p ->
     mapping_get false (isProvider (transact env (AddProvider p) s)) q
       = mapping_get false (isProvider s) q /\
     mapping_get false (isProvider (transact env (RemoveProvider p) s)) q
       = mapping_get false (isProvider s) q) /\
  (isProvider s !! p = None ->
   forall env', msg_sender env' = owner s ->
     isProvider (transact env' (RemoveProvider p) (transact env (AddProvider p) s))
     = isProvider s).
Proof.
  intros Hown Hp.
  assert (Hadd : transact env (AddProvider p) s
                 = set_events (events s ++ [ProviderAdded p])
                     (set_isProvider (<[p := true]> (isProvider s)) s)).
  { unfold transact, run, addProvider. rewrite onlyOwner_pass by exact Hown. reflexivity. }
  assert (Hrem : forall env0 s0, msg_sender env0 = owner s0 ->
                 transact env0 (RemoveProvider p) s0
                 = set_events (events s0 ++ [ProviderRemoved p])
                     (set_isProvider (delete p (isProvider s0)) s0)).
  { intros env0 s0 H0. unfold transact, run, removeProvider.
    rewrite onlyOwner_pass by exact H0. reflexivity. }
  split; [| split; [| split]].
  - rewrite submitData_cases, (Hrem env s Hown), Hp. unfold mapping_get. simpl.
    rewrite lookup_delete_eq. reflexivity.
  - rewrite submitData_cases, Hadd, Hp. unfold mapping_get at 1. simpl.
    rewrite lookup_insert_eq. simpl.
    sol_cases; discriminate.
  - intros q Hq. rewrite Hadd, (Hrem env s Hown). unfold mapping_get. simpl.
    rewrite lookup_insert_ne, lookup_delete_ne by congruence. split; reflexivity.
  - intros Hnone env' Hown'. rewrite Hadd. rewrite Hrem by exact Hown'. simpl.
    rewrite delete_insert_eq. apply delete_id. exact Hnone.
Qed.

Lemma owner_outcome (env : Env) (c : Call) (s : State) :
  msg_sender env = owner s -> outcome env c s <> Some NotOwner.
Proof.
  intros Hown.
  destruct c as [o | p | p | fl | cd | | | v t | b | requestId cleartexts proof];
    unfold outcome, run.
  1-5: unfold transferOwnership, addProvider, removeProvider, setPaused, setCooldownSeconds;
       rewrite onlyOwner_pass by exact Hown; try destruct fl; discriminate.
  - rewrite openBatch_cases, Hown, N.eqb_refl. sol_cases; discriminate.
  - rewrite closeBatch_cases, Hown, N.eqb_refl. sol_cases; discriminate.
  - rewrite submitData_cases. sol_cases; discriminate.
  - rewrite requestBatchDecryption_cases, Hown, N.eqb_refl. sol_cases; discriminate.
  - rewrite myCallback_cases. sol_cases; discriminate.
Qed.

(** X15.  A transfer of ownership hands every owner-only function over: after
    it the former owner gets [NotOwner] from each of them, the new owner
    never does, and the new owner can transfer the ownership back. *)
Theorem ownership_handover (env : Env) (newOwner : address) (s : State) :
  msg_sender env = owner s ->
  newOwner <> owner s ->
  (forall env' c, msg_sender env' = owner s -> owner_gated c = true ->
     outcome env' c (transact env (TransferOwnership newOwner) s) = Some NotOwner) /\
  (forall env' c, msg_sender env' = newOwner ->
     outcome env' c (transact env (TransferOwnership newOwner) s) <> Some NotOwner) /\
  (forall env', msg_sender env' = newOwner ->
     owner (transact env' (TransferOwnership (owner s))
              (transact env (TransferOwnership newOwner) s)) = owner s).
Proof.
  intros Hown Hne.
  assert (Hs1 : transact env (TransferOwnership newOwner) s
                = set_owner newOwner
                    (set_events (events s ++ [OwnershipTransferred (owner s) newOwner]) s)).
  { unfold transact, run, transferOwnership. rewrite onlyOwner_pass by exact Hown.
    reflexivity. }
  split; [| split].
  - intros env' c Hold Hg. apply owner_gated_NotOwner; [exact Hg |].
    rewrite Hs1, Hold. simpl. congruence.
  - intros env' c Hnew. apply owner_outcome. rewrite Hs1. exact Hnew.
  - intros env' Hnew. rewrite Hs1.
    unfold transact at 1, run, transferOwnership.
    rewrite onlyOwner_pass by exact Hnew. reflexivity.
Qed.

End Roles.

Lemma provider_registry_witness :
  submitData (Mock.at_time Mock.bob 2000) (Mock.enc 101 5) (Mock.enc 102 10)
    (transact (Mock.at_time Mock.alice 1500) (RemoveProvider Mock.bob) Mock.opened)
  = Revert NotProvider.
Proof.
  refine (proj1 (@provider_registry Mock.engine (Mock.at_time Mock.alice 1500)
                   (Mock.at_time Mock.bob 2000) Mock.bob
                   (Mock.enc 101 5) (Mock.enc 102 10) Mock.opened _ _)).
  - reflexivity.
  - reflexivity.
Defined.

Lemma ownership_handover_witness :
  outcome (Mock.at_time Mock.alice 1600) OpenBatch
    (transact (Mock.at_time Mock.alice 1500) (TransferOwnership Mock.carol) Mock.registered)
  = Some NotOwner /\
  outcome (Mock.at_time Mock.carol 1600) OpenBatch
    (transact (Mock.at_time Mock.alice 1500) (TransferOwnership Mock.carol) Mock.registered)
  <> Some NotOwner.
Proof.
  destruct (ownership_handover (Mock.at_time Mock.alice 1500) Mock.carol Mock.registered)
    as (Hold & Hnew & _).
  - reflexivity.
  - vm_compute. intros H; discriminate H.
  - split.
    + apply Hold; reflexivity.
    + apply Hnew. reflexivity.
Defined.

(** ** The cooldown setting and the fresh deployment *)

Section Settings.
Context {engine : FHEEngine}.

Lemma myCallback_unknown_request_fresh (env : Env) (requestId : uint256)
    (cleartexts proof : bytes) :
  myCallback requestId cleartexts proof (constructor env) = Revert InvalidBatch.
Proof. rewrite myCallback_cases. reflexivity. Qed.

(** X16.  One cooldown governs both kinds of action.  Once the owner has set
    it to [c], a provider's submission reverts with [CooldownActive]
    exactly when it comes before that provider's last submission time
    plus [c], and the owner's decryption request reverts with
    [CooldownActive] exactly when it comes before the owner's last
    request time plus [c]. *)
Theorem cooldown_setting_governs_both (env env' : Env) (c : uint256) (s : State)
    (v t : euint32) (b : uint256) :
  msg_sender env = owner s ->
  paused s = false ->
  (mapping_get false (isProvider s) (msg_sender env') = true ->
   mapping_get 0 (lastSubmissionTime s) (msg_sender env') + c <= MAX_UINT256 ->
   (submitData env' v t (transact env (SetCooldownSeconds c) s) = Revert CooldownActive <->
    block_timestamp env' < mapping_get 0 (lastSubmissionTime s) (msg_sender env') + c)) /\
  (msg_sender env' = owner s ->
   mapping_get 0 (lastDecryptionRequestTime s) (msg_sender env') + c <= MAX_UINT256 ->
   (requestBatchDecryption env' b (transact env (SetCooldownSeconds c) s)
      = Revert CooldownActive <->
    block_timestamp env' < mapping_get 0 (lastDecryptionRequestTime s) (msg_sender env') + c)).
Proof.
  intros Hown Hp.
  assert (Hs1 : transact env (SetCooldownSeconds c) s
                = set_cooldownSeconds c
                    (set_events (events s ++ [CooldownSecondsSet (cooldownSeconds s) c]) s)).
  { unfold transact, run, setCooldownSeconds. rewrite onlyOwner_pass by exact Hown.
    reflexivity. }
  rewrite Hs1. split.
  - intros Hprov Hfit. rewrite submitData_cases. simpl. rewrite Hprov, Hp. simpl.
    destruct (N.leb_spec (mapping_get 0 (lastSubmissionTime s) (msg_sender env') + c)
                MAX_UINT256); [| lia]. simpl.
    destruct (N.ltb_spec (block_timestamp env')
                (mapping_get 0 (lastSubmissionTime s) (msg_sender env') + c)).
    + split; [intros _; assumption | reflexivity].
    + split; [| lia]. sol_cases; discriminate.
  - intros Hown' Hfit. rewrite requestBatchDecryption_cases. simpl.
    rewrite Hown', N.eqb_refl, Hp. simpl. rewrite <- Hown'.
    destruct (N.leb_spec (mapping_get 0 (lastDecryptionRequestTime s) (msg_sender env') + c)
                MAX_UINT256); [| lia]. simpl.
    destruct (N.ltb_spec (block_timestamp env')
                (mapping_get 0 (lastDecryptionRequestTime s) (msg_sender env') + c)).
    + split; [intros _; assumption | reflexivity].
    + split; [| lia]. sol_cases; discriminate.
Qed.

(** X17.  Right after deployment, with no provider, no batch and no request:
    [closeBatch] by the deployer reverts with [BatchNotOpen]; every
    [submitData], the deployer's included, reverts with [NotProvider];
    the deployer's decryption request reverts with [CooldownActive]
    before time 60 and with [InvalidBatch] from then on, whatever the
    batch id; every callback reverts with [InvalidBatch]; and the
    deployer's [openBatch] allocates batch 1. *)
Theorem fresh_deployment (env env' : Env) :
  msg_sender env' = msg_sender env ->
  closeBatch env' (constructor env) = Revert BatchNotOpen /\
  (forall anyone v t, submitData anyone v t (constructor env) = Revert NotProvider) /\
  (forall b, requestBatchDecryption env' b (constructor env)
             = if block_timestamp env' <? 60 then Revert CooldownActive
               else Revert InvalidBatch) /\
  (forall requestId cleartexts proof,
     myCallback requestId cleartexts proof (constructor env) = Revert InvalidBatch) /\
  (exists s', openBatch env' (constructor env) = Ok tt s' /\
              currentBatchId s' = 1 /\
              batch_at s' 1 = mkBatch 1 true 0 (FHE_asEuint32 0) (FHE_asEuint32 0)).
Proof.
  intros Hsame.
  split; [| split; [| split; [| split]]].
  - rewrite closeBatch_cases. simpl. rewrite Hsame, N.eqb_refl. reflexivity.
  - intros anyone v t. rewrite submitData_cases. reflexivity.
  - intros b. rewrite requestBatchDecryption_cases. simpl.
    rewrite Hsame, N.eqb_refl. simpl.
    unfold mapping_get. rewrite lookup_empty. simpl.
    change (0 + 60) with 60.
    destruct (block_timestamp env' <? 60); [reflexivity |].
    destruct (N.eqb_spec b 0); [reflexivity |].
    destruct (N.ltb_spec 0 b); [reflexivity | lia].
  - intros requestId cleartexts proof. apply myCallback_unknown_request_fresh.
  - exists (opened_state (constructor env)).
    split; [| split; reflexivity].
    rewrite openBatch_cases. simpl. rewrite Hsame, N.eqb_refl. reflexivity.
Qed.

End Settings.

Lemma cooldown_setting_governs_both_witness :
  submitData (Mock.at_time Mock.bob 3000) (Mock.enc 103 3) (Mock.enc 104 20)
    (transact (Mock.at_time Mock.alice 2500) (SetCooldownSeconds 5000)
       (transact (Mock.at_time Mock.bob 2000)
          (SubmitData (Mock.enc 101 5) (Mock.enc 102 10)) Mock.opened))
  = Revert CooldownActive.
Proof.
  destruct (cooldown_setting_governs_both (Mock.at_time Mock.alice 2500)
              (Mock.at_time Mock.bob 3000) 5000
              (transact (Mock.at_time Mock.bob 2000)
                 (SubmitData (Mock.enc 101 5) (Mock.enc 102 10)) Mock.opened)
              (Mock.enc 103 3) (Mock.enc 104 20) 1) as [Hsub _].
  - reflexivity.
  - reflexivity.
  - apply Hsub.
    + reflexivity.
    + vm_compute. intros H; discriminate H.
    + vm_compute. reflexivity.
Defined.

Lemma fresh_deployment_witness :
  requestBatchDecryption (Mock.at_time Mock.alice 1001) 1 Mock.deployed = Revert InvalidBatch /\
  requestBatchDecryption (Mock.at_time Mock.alice 30) 1 Mock.deployed = Revert CooldownActive.
Proof.
  split.
  - exact (proj1 (proj2 (proj2 (fresh_deployment (Mock.at_time Mock.alice 1000)
                                  (Mock.at_time Mock.alice 1001) eq_refl))) 1).
  - exact (proj1 (proj2 (proj2 (fresh_deployment (Mock.at_time Mock.alice 1000)
                                  (Mock.at_time Mock.alice 30) eq_refl))) 1).
Defined.

(** ** Completion events *)

Section Completions.
Context {engine : FHEEngine}.

Lemma abi_decode_uint32_pair_bounds (data : bytes) (total maxT : N) :
  abi_decode_uint32_pair data = Some (total, maxT) ->
  total < 2 ^ 32 /\ maxT < 2 ^ 32 /\ 64 <= N.of_nat (length data).
Proof.
  unfold abi_decode_uint32_pair.
  destruct (N.ltb_spec (N.of_nat (length data)) 64); [discriminate |].
  destruct (N.ltb_spec (word_of_bytes (firstn 32 data)) (2 ^ 32)); [| discriminate].
  destruct (N.ltb_spec (word_of_bytes (firstn 32 (skipn 32 data))) (2 ^ 32));
    [| discriminate].
  intros [= <- <-]. repeat split; assumption.
Qed.

Lemma myCallback_Ok_checks (requestId : uint256) (cleartexts proof : bytes) (s s' : State) :
  myCallback requestId cleartexts proof s = Ok tt s' ->
  exists total maxT,
    abi_decode_uint32_pair cleartexts = Some (total, maxT) /\
    s' = completed_state requestId total maxT s /\
    1 <= batchId (context_at s requestId) <= currentBatchId s.
Proof.
  rewrite myCallback_cases. simpl.
  destruct (processed (context_at s requestId)); [discriminate |].
  destruct ((batchId (context_at s requestId) =? 0)
            || (currentBatchId s <? batchId (context_at s requestId))) eqn:Hr;
    [discriminate |].
  destruct (negb (_ =? _)); [discriminate |].
  destruct (negb (FHE_checkSignatures _ _ _)); [discriminate |].
  destruct (abi_decode_uint32_pair cleartexts) as [[t m] |]; [| discriminate].
  intros [= <-]. exists t, m.
  apply orb_false_iff in Hr. destruct Hr as [Hz Hhi].
  apply N.eqb_neq in Hz. apply N.ltb_ge in Hhi.
  repeat split; try reflexivity; lia.
Qed.

Ltac old_or_other H :=
  rewrite ?in_app_iff in H; simpl in H;
  first [ left; exact H
        | destruct H as [H | [H | []]]; [left; exact H | discriminate H] ].

(** A completion event enters the log only through a callback that went
    through, for that callback's request id, with the batch id of its
    context and the pair decoded from its cleartexts. *)
Lemma completion_logged_transact (env : Env) (c : Call) (s : State) (r b t m : N) :
  In (DecryptionCompleted r b t m) (events (transact env c s)) ->
  In (DecryptionCompleted r b t m) (events s) \/
  (exists cleartexts proof,
      myCallback r cleartexts proof s = Ok tt (transact env c s) /\
      abi_decode_uint32_pair cleartexts = Some (t, m) /\
      b = batchId (context_at s r) /\
      1 <= b <= currentBatchId s).
Proof.
  destruct c as [o | p | p | fl | cd | | | v t0 | b0 | requestId cleartexts proof].
  1-5: sol_unfold; try destruct fl; sol_cases; intros H; old_or_other H.
  - unfold transact, run. rewrite openBatch_cases. sol_cases; intros H; old_or_other H.
  - unfold transact, run. rewrite closeBatch_cases. sol_cases; intros H; old_or_other H.
  - unfold transact, run. rewrite submitData_cases. sol_cases; intros H; old_or_other H.
  - unfold transact, run. rewrite requestBatchDecryption_cases.
    sol_cases; intros H; old_or_other H.
  - unfold transact, run.
    destruct (myCallback requestId cleartexts proof s) as [[] s' |] eqn:Hok;
      [| intros H; left; exact H].
    destruct (myCallback_Ok_checks _ _ _ _ _ Hok) as (t' & m' & Hdec & -> & Hrange).
    unfold completed_state at 1. simpl. rewrite in_app_iff. simpl.
    intros [H | [H | []]]; [left; exact H |].
    injection H as <- <- <- <-. right. exists cleartexts, proof.
    repeat split; try assumption; try reflexivity; apply Hrange.
Qed.

Lemma completion_sound_transact (env : Env) (c : Call) (s : State) (r b t m : N) :
  fresh_ids s ->
  completion_sound s r b t m -> completion_sound (transact env c s) r b t m.
Proof.
  intros Hfresh (Hr & [Hlo Hhi] & Ht & Hm & Hb & Hp).
  destruct (context_kept_transact env c s r Hr) as (Hr' & Hb' & _).
  destruct (accumulators_transact env c s b Hhi) as [Hhi' _].
  repeat split; try assumption.
  - rewrite Hb'. exact Hb.
  - apply processed_transact; assumption.
Qed.

Lemma completions_reachable (s : State) (r b t m : N) :
  reachable s ->
  In (DecryptionCompleted r b t m) (events s) -> completion_sound s r b t m.
Proof.
  intros Hreach. revert r b t m.
  induction Hreach as [env | env c s Hs IH]; intros r b t m Hin.
  - simpl in Hin. destruct Hin as [H | []]. discriminate H.
  - pose proof (fresh_ids_reachable s Hs) as Hfresh.
    destruct (completion_logged_transact env c s r b t m Hin)
      as [Hold | (cl & pf & Hok & Hdec & Hb & Hrange)].
    + apply completion_sound_transact; [exact Hfresh | apply IH, Hold].
    + destruct (abi_decode_uint32_pair_bounds _ _ _ Hdec) as (Ht & Hm & _).
      destruct (myCallback_Ok _ _ _ _ _ Hok) as (_ & Hafter & _).
      assert (Hr : r < counterRequest s).
      { destruct (N.lt_ge_cases r (counterRequest s)) as [H | H]; [exact H |].
        exfalso. rewrite (context_at_None _ _ (Hfresh r H)) in Hb. simpl in Hb. lia. }
      destruct (context_kept_transact env c s r Hr) as (Hr' & Hb' & _).
      destruct (accumulators_transact env c s b (proj2 Hrange)) as [Hhi' _].
      repeat split; try assumption; try (apply Hrange).
      rewrite Hb'. symmetry. exact Hb.
Qed.

(** X18.  In a reachable state every completion event in the log belongs to a
    request that was made, names the batch that request was for, an
    allocated one, carries two values below 2^32, and its request's
    context is processed. *)
Theorem completion_events_sound (s : State) (r b t m : N) :
  reachable s ->
  In (DecryptionCompleted r b t m) (events s) ->
  r < counterRequest s /\
  1 <= b <= currentBatchId s /\
  t < 2 ^ 32 /\ m < 2 ^ 32 /\
  batchId (context_at s r) = b /\
  processed (context_at s r) = true.
Proof.
  intros Hreach Hin. exact (completions_reachable s r b t m Hreach Hin).
Qed.

End Completions.

Lemma completion_events_sound_witness :
  0 < counterRequest Mock.completed /\
  1 <= 1 <= currentBatchId Mock.completed /\
  8 < 2 ^ 32 /\ 20 < 2 ^ 32 /\
  batchId (context_at Mock.completed 0) = 1 /\
  processed (context_at Mock.completed 0) = true.
Proof.
  apply (completion_events_sound Mock.completed 0 1 8 20).
  - apply reference_run_reachable.
  - vm_compute. tauto.
Defined.

(** ** Submissions reach the sum accumulator *)

Section SubmissionsSummed.
Context {engine : FHEEngine}.





End SubmissionsSummed.

